(** * Catalog API: categories, buildings, companies

    A shallow embedding of the directory service: the materialized-path
    maintenance of [utils.update_category_path], the subtree resolution of
    [utils.get_all_child_category_ids], the Haversine distance, and the
    routers of [routers/categories.py], [routers/buildings.py] and
    [routers/companies.py] that call them.

    The SQLAlchemy session is a state: the tables it sees and the
    statements it has executed so far (SELECTs and COMMITs, each COMMIT with
    the tables it made durable).  A handler is a function from sessions to a
    result or a raised [HTTPException], and the session it leaves behind. *)

From Stdlib Require Import ZArith List String Ascii Bool Lia Lra.
From Stdlib Require Import DecimalString DecimalPos Reals.
Import ListNotations.

Local Open Scope Z_scope.

(** ** Python floats

    The arithmetic the handlers use on [float] values.  The embedding is
    generic in it: whatever is proved without assumptions on these
    operations holds of IEEE doubles as of the real numbers. *)

Class PyFloat (F : Type) : Type := {
  of_int : Z -> F;
  fadd : F -> F -> F;
  fsub : F -> F -> F;
  fmul : F -> F -> F;
  fdiv : F -> F -> F;
  fpow : F -> Z -> F;
  math_pi : F;
  math_sin : F -> F;
  math_cos : F -> F;
  math_asin : F -> F;
  math_sqrt : F -> F;
  fle : F -> F -> bool;
  fge : F -> F -> bool
}.

(** ** Strings *)

Definition str (n : Z) : string := NilZero.string_of_int (Z.to_int n).

Definition slash : ascii := "/"%char.
Definition comma : ascii := ","%char.

(** [s.startswith(p)] *)
Fixpoint startswith (p s : string) : bool :=
  match p with
  | EmptyString => true
  | String a p' =>
      match s with
      | EmptyString => false
      | String b s' => Ascii.eqb a b && startswith p' s'
      end
  end.

Definition is_upper (c : ascii) : bool :=
  let n := nat_of_ascii c in (Nat.leb 65 n && Nat.leb n 90)%bool.

Definition lower (c : ascii) : ascii :=
  if is_upper c then ascii_of_nat (nat_of_ascii c + 32) else c.

(** SQLite's [LIKE], on the bytes of the text: [%] matches any run of
    characters, [_] any one character, and every other character matches
    itself up to the case of ASCII letters.  There is no escape
    character. *)
Fixpoint like (pat s : string) : bool :=
  match pat with
  | EmptyString => match s with EmptyString => true | String _ _ => false end
  | String c pat' =>
      if Ascii.eqb c "%" then
        (fix skip (t : string) : bool :=
           like pat' t
           || match t with EmptyString => false | String _ t' => skip t' end) s
      else
        match s with
        | EmptyString => false
        | String d s' =>
            (if Ascii.eqb c "_" then true else Ascii.eqb (lower c) (lower d))
            && like pat' s'
        end
  end.

(** Two texts of the same length that agree up to the case of ASCII
    letters. *)
Fixpoint same_letters (a b : string) : bool :=
  match a, b with
  | EmptyString, EmptyString => true
  | String c a', String d b' =>
      Ascii.eqb (lower c) (lower d) && same_letters a' b'
  | _, _ => false
  end.

(** [sep.join(parts)] for a one-character separator. *)
Fixpoint join (sep : ascii) (parts : list string) : string :=
  match parts with
  | [] => EmptyString
  | [p] => p
  | p :: rest => (p ++ String sep (join sep rest))%string
  end.

(** [s.split(sep)]: the pieces between the occurrences of [sep]; always at
    least one piece. *)
Fixpoint split_acc (sep : ascii) (piece : string) (s : string) : list string :=
  match s with
  | EmptyString => [piece]
  | String c s' =>
      if Ascii.eqb c sep then piece :: split_acc sep EmptyString s'
      else split_acc sep (piece ++ String c EmptyString)%string s'
  end.

Definition split (sep : ascii) (s : string) : list string :=
  split_acc sep EmptyString s.

Fixpoint contains_char (c : ascii) (s : string) : bool :=
  match s with
  | EmptyString => false
  | String d s' => Ascii.eqb c d || contains_char c s'
  end.

(** [s.count(c)] *)
Fixpoint count_char (c : ascii) (s : string) : nat :=
  match s with
  | EmptyString => O
  | String d s' => ((if Ascii.eqb c d then 1 else 0) + count_char c s')%nat
  end.

Definition is_digit (c : ascii) : bool :=
  let n := nat_of_ascii c in (Nat.leb 48 n && Nat.leb n 57)%bool.

Fixpoint string_forallb (p : ascii -> bool) (s : string) : bool :=
  match s with
  | EmptyString => true
  | String c s' => p c && string_forallb p s'
  end.

Definition path_char (c : ascii) : bool := is_digit c || Ascii.eqb c slash.

(** A path as the handlers write it: digits and slashes, not empty. *)
Definition path_shape (p : string) : bool :=
  negb (String.eqb p EmptyString)
  && string_forallb path_char p.

(** ** models.py

    Timestamps are left out: no handler modelled here reads them. *)

Section Catalog.

Context {F : Type} {PF : PyFloat F}.

Record Building : Type := mkBuilding {
  bld_id : Z;
  bld_address : string;
  bld_latitude : F;
  bld_longitude : F
}.

Record Category : Type := mkCategory {
  cat_id : Z;
  cat_name : string;
  cat_parent_id : option Z;
  cat_level : Z;
  cat_path : option string
}.

(** [co_phones] is the comma-joined text column; [co_categories] are the
    rows of the association table [company_categories] for this company. *)
Record Company : Type := mkCompany {
  co_id : Z;
  co_name : string;
  co_phones : string;
  co_description : option string;
  co_website : option string;
  co_email : option string;
  co_building_id : Z;
  co_is_active : Z;
  co_categories : list Z
}.

Record Database : Type := mkDatabase {
  buildings : list Building;
  categories : list Category;
  companies : list Company
}.

Definition empty_db : Database := mkDatabase [] [] [].

(** ** The session *)

Inductive Table : Type := TBuildings | TCategories | TCompanies.

Inductive Statement : Type :=
| Select (t : Table)
| Commit (durable : Database).

Record Session : Type := mkSession {
  db : Database;
  executed : list Statement
}.

Definition new_session (d : Database) : Session := mkSession d [].

Inductive Detail : Type :=
| ParentCategoryNotFound
| CategoryNotFound
| BuildingNotFound
| CompanyNotFound
| CategoriesNotFound (missing_ids : list Z)
| CannotDeleteBuilding (companies_count : Z)
| InvalidRectangle
| RadiusOrRectangleRequired.

Record HTTPException : Type := mkHTTPException {
  status_code : Z;
  detail : Detail
}.

Inductive Result (A : Type) : Type :=
| Ok (a : A)
| Raise (e : HTTPException).

Arguments Ok {A} a.
Arguments Raise {A} e.

Definition M (A : Type) : Type := Session -> Result A * Session.

Definition ret {A} (a : A) : M A := fun s => (Ok a, s).

Definition bind {A B} (m : M A) (k : A -> M B) : M B :=
  fun s =>
    match m s with
    | (Ok a, s') => k a s'
    | (Raise e, s') => (Raise e, s')
    end.

Definition raise {A} (status : Z) (d : Detail) : M A :=
  fun s => (Raise (mkHTTPException status d), s).

Notation "x <- m ;; k" := (bind m (fun x => k))
  (at level 61, m at next level, right associativity).
Notation "m ;;; k" := (bind m (fun _ => k))
  (at level 61, right associativity).

Definition record (st : Statement) (s : Session) : Session :=
  mkSession (db s) (executed s ++ [st]).

(** The keys the SQLite driver binds as parameters: 64-bit signed
    integers.  Binding a Python [int] outside this range raises
    [OverflowError] before the statement runs, so the queries below embed
    the lookups whose keys the driver accepts.  The ids of stored rows are
    such keys; a theorem that concludes from a key handed in by the caller
    and found in no row assumes [fits_int64] of it. *)
Definition fits_int64 (n : Z) : bool := (- 2 ^ 63 <=? n) && (n <? 2 ^ 63).

(** [db.query(T).filter(p).first()] *)
Definition query_first {T} (t : Table) (rows : Database -> list T)
    (p : T -> bool) : M (option T) :=
  fun s => (Ok (find p (rows (db s))), record (Select t) s).

(** [db.query(T).filter(p).all()] *)
Definition query_all {T} (t : Table) (rows : Database -> list T)
    (p : T -> bool) : M (list T) :=
  fun s => (Ok (filter p (rows (db s))), record (Select t) s).

(** [db.query(T).filter(p).count()] *)
Definition query_count {T} (t : Table) (rows : Database -> list T)
    (p : T -> bool) : M Z :=
  fun s => (Ok (Z.of_nat (List.length (filter p (rows (db s))))), record (Select t) s).

(** [db.commit()] *)
Definition commit : M unit :=
  fun s => (Ok tt, record (Commit (db s)) s).

(** The integer primary key SQLite gives a new row: one more than the
    largest in the table, 1 in an empty table. *)
Definition next_id (ids : list Z) : Z := 1 + fold_right Z.max 0 ids.

Definition set_categories (cs : list Category) (d : Database) : Database :=
  mkDatabase (buildings d) cs (companies d).

Definition set_buildings (bs : list Building) (d : Database) : Database :=
  mkDatabase bs (categories d) (companies d).

Definition set_companies (cs : list Company) (d : Database) : Database :=
  mkDatabase (buildings d) (categories d) cs.

(** [db.add(Category(name=name, parent_id=parent_id))], flushed: the row
    gets its id, the column default [level = 0] and a NULL [path]. *)
Definition add_category (name : string) (parent_id : option Z) : M Category :=
  fun s =>
    let row := mkCategory (next_id (map cat_id (categories (db s))))
                 name parent_id 0 None in
    (Ok row,
     mkSession (set_categories (categories (db s) ++ [row]) (db s)) (executed s)).

(** Attribute assignment on a Category object attached to the session:
    the row with that id now carries the new values. *)
Definition assign_category (c : Category) : M unit :=
  fun s =>
    (Ok tt,
     mkSession
       (set_categories
          (map (fun r => if cat_id r =? cat_id c then c else r)
             (categories (db s)))
          (db s))
       (executed s)).

(** ** utils.py *)

Definition with_path_level (c : Category) (p : string) (l : Z) : Category :=
  mkCategory (cat_id c) (cat_name c) (cat_parent_id c) l (Some p).

(** Python truthiness of an [Optional[int]]: neither [None] nor [0]. *)
Definition truthy_int (o : option Z) : option Z :=
  match o with
  | Some n => if n =? 0 then None else Some n
  | None => None
  end.

(** Python truthiness of an [Optional[str]]: neither [None] nor empty. *)
Definition truthy_str (o : option string) : option string :=
  match o with
  | Some EmptyString => None
  | Some s => Some s
  | None => None
  end.

Definition update_category_path (category : Category) : M Category :=
  match truthy_int (cat_parent_id category) with
  | Some pid =>
      parent <- query_first TCategories categories (fun c => cat_id c =? pid) ;;
      match parent with
      | Some parent =>
          let path :=
            match truthy_str (cat_path parent) with
            | Some ppath =>
                (ppath ++ String slash (str (cat_id category)))%string
            | None =>
                (str (cat_id parent) ++ String slash (str (cat_id category)))%string
            end in
          let category' := with_path_level category path (cat_level parent + 1) in
          assign_category category' ;;; ret category'
      | None => ret category
      end
  | None =>
      let category' := with_path_level category (str (cat_id category)) 0 in
      assign_category category' ;;; ret category'
  end.

Definition path_matches (target : string) (c : Category) : bool :=
  match cat_path c with
  | Some p =>
      like (target ++ String slash (String "%" EmptyString))%string p
      || String.eqb p target
  | None => false
  end.

Definition get_all_child_category_ids (category_id : Z) : M (list Z) :=
  let result := [category_id] in
  category <- query_first TCategories categories
                (fun c => cat_id c =? category_id) ;;
  match category with
  | Some category =>
      match truthy_str (cat_path category) with
      | Some path =>
          children <- query_all TCategories categories (path_matches path) ;;
          ret (result ++
               map cat_id
                 (filter (fun child => negb (cat_id child =? category_id))
                    children))
      | None => ret result
      end
  | None => ret result
  end.

Definition math_radians (x : F) : F := fmul x (fdiv math_pi (of_int 180)).

Definition calculate_distance_haversine (lat1 lon1 lat2 lon2 : F) : F :=
  let lat1 := math_radians lat1 in
  let lon1 := math_radians lon1 in
  let lat2 := math_radians lat2 in
  let lon2 := math_radians lon2 in
  let dlat := fsub lat2 lat1 in
  let dlon := fsub lon2 lon1 in
  let a :=
    fadd (fpow (math_sin (fdiv dlat (of_int 2))) 2)
      (fmul (fmul (math_cos lat1) (math_cos lat2))
         (fpow (math_sin (fdiv dlon (of_int 2))) 2)) in
  let c := fmul (of_int 2) (math_asin (math_sqrt a)) in
  let r := of_int 6371 in
  fmul c r.

(** ** routers/categories.py *)

Record CategoryCreate : Type := mkCategoryCreate {
  cc_name : string;
  cc_parent_id : option Z
}.

Definition create_category (category : CategoryCreate) : M Category :=
  match truthy_int (cc_parent_id category) with
  | Some pid =>
      parent <- query_first TCategories categories (fun c => cat_id c =? pid) ;;
      match parent with
      | Some _ => ret tt
      | None => raise 404 ParentCategoryNotFound
      end
  | None => ret tt
  end ;;;
  db_category <- add_category (cc_name category) (cc_parent_id category) ;;
  commit ;;;
  db_category <- update_category_path db_category ;;
  commit ;;;
  ret db_category.

(** ** routers/buildings.py *)

Record BuildingCreate : Type := mkBuildingCreate {
  bc_address : string;
  bc_latitude : F;
  bc_longitude : F
}.

(** [db.add(Building(...))], flushed. *)
Definition add_building (b : BuildingCreate) : M Building :=
  fun s =>
    let row := mkBuilding (next_id (map bld_id (buildings (db s))))
                 (bc_address b) (bc_latitude b) (bc_longitude b) in
    (Ok row,
     mkSession (set_buildings (buildings (db s) ++ [row]) (db s)) (executed s)).

Definition create_building (building : BuildingCreate) : M Building :=
  db_building <- add_building building ;;
  commit ;;;
  ret db_building.

(** [db.delete(db_building)]: the row goes, and with it, through the
    relationship's [cascade="all, delete-orphan"], the companies of the
    building and their association rows. *)
Definition delete_building_row (b : Building) : M unit :=
  fun s =>
    (Ok tt,
     mkSession
       (mkDatabase
          (filter (fun r => negb (bld_id r =? bld_id b)) (buildings (db s)))
          (categories (db s))
          (filter (fun c => negb (co_building_id c =? bld_id b))
             (companies (db s))))
       (executed s)).

Definition building_deleted : string := "Building deleted successfully".

Definition delete_building (building_id : Z) : M string :=
  db_building <- query_first TBuildings buildings
                   (fun b => bld_id b =? building_id) ;;
  match db_building with
  | None => raise 404 BuildingNotFound
  | Some db_building =>
      companies_count <- query_count TCompanies companies
                           (fun c => co_building_id c =? building_id) ;;
      if companies_count >? 0 then
        raise 400 (CannotDeleteBuilding companies_count)
      else
        delete_building_row db_building ;;;
        commit ;;;
        ret building_deleted
  end.

(** ** routers/companies.py *)

Record CompanyCreate : Type := mkCompanyCreate {
  cr_name : string;
  cr_phones : list string;
  cr_description : option string;
  cr_website : option string;
  cr_email : option string;
  cr_building_id : Z;
  cr_category_ids : list Z;
  cr_is_active : bool
}.

(** The Company object a handler returns, after it has replaced [phones]
    by a list and [is_active] by a bool for the response. *)
Record CompanyOut : Type := mkCompanyOut {
  out_id : Z;
  out_name : string;
  out_phones : list string;
  out_description : option string;
  out_website : option string;
  out_email : option string;
  out_building_id : Z;
  out_is_active : bool;
  out_categories : list Z
}.

Definition py_bool (n : Z) : bool := negb (n =? 0).

(** [company.phones = company.phones.split(",")] *)
Definition convert_unguarded (c : Company) : CompanyOut :=
  mkCompanyOut (co_id c) (co_name c) (split comma (co_phones c))
    (co_description c) (co_website c) (co_email c) (co_building_id c)
    (py_bool (co_is_active c)) (co_categories c).

(** [company.phones = company.phones.split(",") if company.phones else []] *)
Definition convert (c : Company) : CompanyOut :=
  mkCompanyOut (co_id c) (co_name c)
    (match co_phones c with
     | EmptyString => []
     | phones => split comma phones
     end)
    (co_description c) (co_website c) (co_email c) (co_building_id c)
    (py_bool (co_is_active c)) (co_categories c).

Definition mem (x : Z) (l : list Z) : bool := existsb (Z.eqb x) l.

(** [set(a) - set(b)], as some list without repetitions. *)
Definition set_difference (a b : list Z) : list Z :=
  nodup Z.eq_dec (filter (fun x => negb (mem x b)) a).

(** [db.add(Company(...))] with [categories] assigned, flushed. *)
Definition add_company (company : CompanyCreate) (cats : list Category)
    : M Company :=
  fun s =>
    let row := mkCompany (next_id (map co_id (companies (db s))))
                 (cr_name company)
                 (join comma (cr_phones company))
                 (cr_description company) (cr_website company)
                 (cr_email company) (cr_building_id company)
                 (if cr_is_active company then 1 else 0)
                 (map cat_id cats) in
    (Ok row,
     mkSession (set_companies (companies (db s) ++ [row]) (db s)) (executed s)).

Definition create_company (company : CompanyCreate) : M CompanyOut :=
  building <- query_first TBuildings buildings
                (fun b => bld_id b =? cr_building_id company) ;;
  match building with
  | None => raise 404 BuildingNotFound
  | Some _ =>
      cats <- query_all TCategories categories
                (fun c => mem (cat_id c) (cr_category_ids company)) ;;
      if negb (Nat.eqb (List.length cats)
                 (List.length (cr_category_ids company))) then
        raise 404
          (CategoriesNotFound
             (set_difference (cr_category_ids company) (map cat_id cats)))
      else
        db_company <- add_company company cats ;;
        commit ;;;
        ret (convert_unguarded db_company)
  end.

Definition get_company (company_id : Z) : M CompanyOut :=
  company <- query_first TCompanies companies
               (fun c => co_id c =? company_id) ;;
  match company with
  | None => raise 404 CompanyNotFound
  | Some company => ret (convert company)
  end.

(** [db.query(Company).join(Building)]: every company with the row of its
    building, in the order of the companies table. *)
Definition company_join_building (d : Database) : list (Company * Building) :=
  flat_map
    (fun c =>
       match find (fun b => bld_id b =? co_building_id c) (buildings d) with
       | Some b => [(c, b)]
       | None => []
       end)
    (companies d).

Definition active_filter (active_only : bool) (cb : Company * Building) : bool :=
  if active_only then co_is_active (fst cb) =? 1 else true.

(** The loop of the circular search: the companies within the radius, in
    the order they are met. *)
Definition radius_loop (latitude longitude radius_km : F)
    (candidates : list (Company * Building)) : list (Company * Building) :=
  fold_left
    (fun filtered_companies company =>
       let distance :=
         calculate_distance_haversine latitude longitude
           (bld_latitude (snd company)) (bld_longitude (snd company)) in
       if fle distance radius_km then filtered_companies ++ [company]
       else filtered_companies)
    candidates [].

(** Within the radius, as the loop of the handler tests it. *)
Definition within_radius (latitude longitude radius_km : F)
    (cb : Company * Building) : bool :=
  fle (calculate_distance_haversine latitude longitude
         (bld_latitude (snd cb)) (bld_longitude (snd cb)))
    radius_km.

Definition in_rectangle (min_lat max_lat min_lng max_lng : F)
    (cb : Company * Building) : bool :=
  fge (bld_latitude (snd cb)) min_lat
  && fle (bld_latitude (snd cb)) max_lat
  && fge (bld_longitude (snd cb)) min_lng
  && fle (bld_longitude (snd cb)) max_lng.

(** The loop reads [company.building], a lazy many-to-one relationship
    that the joined query has not loaded: the first read of a building in
    the session issues a SELECT on [buildings]; later reads of the same
    building find the object in the session. *)
Definition load_buildings (candidates : list (Company * Building)) : M unit :=
  fun s =>
    (Ok tt,
     mkSession (db s)
       (executed s
        ++ map (fun _ => Select TBuildings)
             (nodup Z.eq_dec (map (fun cb => bld_id (snd cb)) candidates)))).

Definition get_companies_by_location (latitude longitude : F)
    (radius_km min_lat max_lat min_lng max_lng : option F)
    (active_only : bool) : M (list CompanyOut) :=
  let base_query := active_filter active_only in
  companies <-
    match radius_km with
    | Some radius_km =>
        candidates <- query_all TCompanies company_join_building base_query ;;
        load_buildings candidates ;;;
        ret (radius_loop latitude longitude radius_km candidates)
    | None =>
        match min_lat, max_lat, min_lng, max_lng with
        | Some min_lat, Some max_lat, Some min_lng, Some max_lng =>
            if fge min_lat max_lat || fge min_lng max_lng then
              raise 400 InvalidRectangle
            else
              query_all TCompanies company_join_building
                (fun cb =>
                   base_query cb
                   && in_rectangle min_lat max_lat min_lng max_lng cb)
        | _, _, _, _ => raise 400 RadiusOrRectangleRequired
        end
    end ;;
  ret (map (fun cb => convert (fst cb)) companies).

(** ** The other handlers of the routers *)

(** [query.offset(skip).limit(limit).all()].  SQLite reads a negative
    OFFSET as 0 and a negative LIMIT as no limit; both are bound as
    parameters, so they are keys in the sense of [fits_int64]. *)
Definition page {T} (skip limit : Z) (rows : list T) : list T :=
  let rest := skipn (Z.to_nat skip) rows in
  if limit <? 0 then rest else firstn (Z.to_nat limit) rest.

Definition query_page {T} (t : Table) (rows : Database -> list T)
    (p : T -> bool) (skip limit : Z) : M (list T) :=
  fun s => (Ok (page skip limit (filter p (rows (db s)))), record (Select t) s).

(** [if active_only: query = query.filter(Company.is_active == 1)] *)
Definition company_active (active_only : bool) (c : Company) : bool :=
  if active_only then co_is_active c =? 1 else true.

(** routers/buildings.py *)

Definition list_buildings (skip limit : Z) : M (list Building) :=
  query_page TBuildings buildings (fun _ => true) skip limit.

Definition get_building (building_id : Z) : M Building :=
  building <- query_first TBuildings buildings
                (fun b => bld_id b =? building_id) ;;
  match building with
  | None => raise 404 BuildingNotFound
  | Some building => ret building
  end.

(** routers/companies.py *)

Definition list_companies (skip limit : Z) (active_only : bool)
    : M (list CompanyOut) :=
  companies <- query_page TCompanies companies (company_active active_only)
                 skip limit ;;
  ret (map convert companies).

Definition get_companies_by_building (building_id : Z) (active_only : bool)
    : M (list CompanyOut) :=
  building <- query_first TBuildings buildings
                (fun b => bld_id b =? building_id) ;;
  match building with
  | None => raise 404 BuildingNotFound
  | Some _ =>
      companies <- query_all TCompanies companies
                     (fun c => (co_building_id c =? building_id)
                               && company_active active_only c) ;;
      ret (map convert companies)
  end.

(** [db.query(Company).join(Company.categories).filter(on Category.id)],
    with [.distinct()]: the companies that have an association row to a
    category of the table whose id passes the filter, each once. *)
Definition company_join_categories (on_id : Z -> bool) (d : Database)
    : list Company :=
  filter
    (fun c =>
       existsb
         (fun k => existsb (fun r => cat_id r =? k) (categories d) && on_id k)
         (co_categories c))
    (companies d).

Definition get_companies_by_category (category_id : Z)
    (include_subcategories active_only : bool) : M (list CompanyOut) :=
  category <- query_first TCategories categories
                (fun c => cat_id c =? category_id) ;;
  match category with
  | None => raise 404 CategoryNotFound
  | Some _ =>
      on_id <-
        (if include_subcategories then
           category_ids <- get_all_child_category_ids category_id ;;
           ret (fun k => mem k category_ids)
         else ret (fun k => k =? category_id)) ;;
      companies <- query_all TCompanies (company_join_categories on_id)
                     (company_active active_only) ;;
      ret (map convert companies)
  end.

(** [Company.name.contains(q)] is [name LIKE '%' || q || '%']: the
    wildcards of [q] stay wildcards. *)
Definition name_contains (q : string) (c : Company) : bool :=
  like (String "%" (q ++ String "%" EmptyString)) (co_name c).

Definition search_companies_by_name (q : string) (active_only : bool)
    : M (list CompanyOut) :=
  companies <- query_all TCompanies companies
                 (fun c => name_contains q c && company_active active_only c) ;;
  ret (map convert companies).

(** [db.delete(db_company)]: the row and its association rows. *)
Definition delete_company_row (c : Company) : M unit :=
  fun s =>
    (Ok tt,
     mkSession
       (set_companies
          (filter (fun r => negb (co_id r =? co_id c)) (companies (db s)))
          (db s))
       (executed s)).

Definition company_deleted : string := "Company deleted successfully".

Definition delete_company (company_id : Z) : M string :=
  db_company <- query_first TCompanies companies
                  (fun c => co_id c =? company_id) ;;
  match db_company with
  | None => raise 404 CompanyNotFound
  | Some db_company =>
      delete_company_row db_company ;;;
      commit ;;;
      ret company_deleted
  end.

(** main.py *)

Record Statistics : Type := mkStatistics {
  st_buildings : Z;
  st_categories : Z;
  st_companies_total : Z;
  st_companies_active : Z;
  st_companies_inactive : Z
}.

Definition get_statistics : M Statistics :=
  n_buildings <- query_count TBuildings buildings (fun _ => true) ;;
  n_categories <- query_count TCategories categories (fun _ => true) ;;
  total <- query_count TCompanies companies (fun _ => true) ;;
  active <- query_count TCompanies companies (fun c => co_is_active c =? 1) ;;
  inactive <- query_count TCompanies companies (fun c => co_is_active c =? 0) ;;
  ret (mkStatistics n_buildings n_categories total active inactive).

(** ** routers/test_data.py

    The categories table [generate_test_data] leaves behind: the table is
    emptied, then the rows are added in four batches, each row's path
    written from the ids the store has assigned. *)

Definition seed (name : string) (parent_id : option Z) (level : Z)
    (path : Z -> string) (cats : list Category) : list Category * Category :=
  let row :=
    mkCategory (next_id (map cat_id cats)) name parent_id level
      (Some (path (next_id (map cat_id cats)))) in
  (cats ++ [row], row).

Definition under (ancestors : list Category) (i : Z) : string :=
  fold_right (fun a rest => (str (cat_id a) ++ String slash rest)%string)
    (str i) ancestors.

Definition test_data_categories : list Category :=
  let '(t, food_cat) := seed "Еда" None 0 str [] in
  let '(t, auto_cat) := seed "Автомобили" None 0 str t in
  let '(t, sport_cat) := seed "Спорт" None 0 str t in
  let food := Some (cat_id food_cat) in
  let '(t, meat_cat) := seed "Мясная продукция" food 1 (under [food_cat]) t in
  let '(t, semifinished_cat) :=
    seed "Полуфабрикаты оптом" food 1 (under [food_cat]) t in
  let '(t, vegetables_cat) := seed "Овощи" food 1 (under [food_cat]) t in
  let auto := Some (cat_id auto_cat) in
  let '(t, truck_cat) := seed "Грузовые" auto 1 (under [auto_cat]) t in
  let '(t, car_cat) := seed "Легковые" auto 1 (under [auto_cat]) t in
  let '(t, parts_cat) := seed "Запчасти" auto 1 (under [auto_cat]) t in
  let parts := Some (cat_id parts_cat) in
  let '(t, suspension_cat) :=
    seed "Запчасти для подвески" parts 2 (under [auto_cat; parts_cat]) t in
  let '(t, tires_cat) :=
    seed "Шины/Диски" parts 2 (under [auto_cat; parts_cat]) t in
  t.

(** ** Runs of the service *)

Definition run {A} (m : M A) (d : Database) : Result A * Session :=
  m (new_session d).

Definition result_of {A} (m : M A) (d : Database) : Result A :=
  fst (run m d).

Definition db_after {A} (m : M A) (d : Database) : Database :=
  db (snd (run m d)).

(** The states a handler has made durable, oldest first: what another
    session can read while, or after, the handler runs. *)
Definition durable_states (s : Session) : list Database :=
  flat_map (fun st => match st with Commit d => [d] | Select _ => [] end)
    (executed s).

(** A handler is atomic from [d] when whoever reads the store sees either
    the state before it or the state it ends in. *)
Definition atomic {A} (m : M A) (d : Database) : Prop :=
  forall d', In d' (durable_states (snd (run m d))) ->
    d' = d \/ d' = db_after m d.

(** The databases the service can be in between requests.  Categories are
    written by [create_category] and [generate_test_data] only; every other
    handler leaves the table as it is. *)
Inductive reachable : Database -> Prop :=
| reach_empty : reachable empty_db
| reach_create_category d category :
    reachable d -> reachable (db_after (create_category category) d)
| reach_generate_test_data d d' :
    reachable d -> categories d' = test_data_categories -> reachable d'
| reach_other_handler d d' :
    reachable d -> categories d' = categories d -> reachable d'.

(** The row [create_category] inserts first: id assigned, no path yet. *)
Definition inserted_row (d : Database) (category : CategoryCreate) : Category :=
  mkCategory (next_id (map cat_id (categories d))) (cc_name category)
    (cc_parent_id category) 0 None.

Definition find_category (d : Database) (i : Z) : option Category :=
  find (fun c => cat_id c =? i) (categories d).

Definition find_building (d : Database) (i : Z) : option Building :=
  find (fun b => bld_id b =? i) (buildings d).

Definition companies_count (d : Database) (building_id : Z) : Z :=
  Z.of_nat
    (List.length
       (filter (fun c => co_building_id c =? building_id) (companies d))).

(** The row of [c]'s parent, when [c] names one and it is in the table. *)
Definition parent_of (d : Database) (c : Category) : option Category :=
  match cat_parent_id c with
  | Some pid => find_category d pid
  | None => None
  end.

(** The materialized-path invariant for one row of [d]. *)
Definition path_invariant (d : Database) (c : Category) : Prop :=
  match parent_of d c with
  | Some p =>
      exists ppath,
        cat_path p = Some ppath
        /\ cat_path c = Some (ppath ++ String slash (str (cat_id c)))%string
        /\ cat_level c = cat_level p + 1
  | None => cat_path c = Some (str (cat_id c)) /\ cat_level c = 0
  end.

(** [c] lies in the subtree of [target] as the paths tell it: its path is
    the target's, or the target's followed by a slash and more. *)
Definition path_under (target c : Category) : Prop :=
  exists tpath p,
    cat_path target = Some tpath /\ cat_path c = Some p
    /\ (p = tpath \/ exists rest, p = (tpath ++ String slash rest)%string).

(** [c] is [a] or lies below it along the parent links of the table. *)
Inductive descends (d : Database) (a : Category) : Category -> Prop :=
| descends_self : descends d a a
| descends_child (c p : Category) :
    parent_of d c = Some p -> descends d a p -> descends d a c.

(** Every company's building is in the table. *)
Definition companies_housed (d : Database) : Prop :=
  forall c, In c (companies d) -> find_building d (co_building_id c) <> None.

(** The materialized-path invariant of one row against a table, as a
    test: a row whose parent id names a row of the table has that row's
    path, a slash and its own id, and the next level; any other row is a
    root, and the only parent id that may name no row is 0. *)
Definition row_ok (cats : list Category) (c : Category) : bool :=
  let root :=
    match cat_path c with
    | Some cp => String.eqb cp (str (cat_id c)) && (cat_level c =? 0)
    | None => false
    end in
  match cat_parent_id c with
  | Some pid =>
      match find (fun r => cat_id r =? pid) cats with
      | Some p =>
          match cat_path p, cat_path c with
          | Some pp, Some cp =>
              String.eqb cp (pp ++ String slash (str (cat_id c)))
              && (cat_level c =? cat_level p + 1)
          | _, _ => false
          end
      | None => (pid =? 0) && root
      end
  | None => root
  end.

Definition categories_ok (cs : list Category) : Prop :=
  NoDup (map cat_id cs)
  /\ forall c, In c cs ->
       0 < cat_id c
       /\ exists p, cat_path c = Some p /\ path_shape p = true.

End Catalog.

Arguments Ok {A} a.
Arguments Raise {A} e.
Arguments Building F : clear implicits.
Arguments Database F : clear implicits.
Arguments Session F : clear implicits.
Arguments Statement F : clear implicits.

(** ** Floats as real numbers *)

Definition Rleb (a b : R) : bool := if Rle_dec a b then true else false.
Definition Rgeb (a b : R) : bool := if Rge_dec a b then true else false.

#[export] Instance R_PyFloat : PyFloat R := {|
  of_int := IZR;
  fadd := Rplus;
  fsub := Rminus;
  fmul := Rmult;
  fdiv := Rdiv;
  fpow := powerRZ;
  math_pi := PI;
  math_sin := sin;
  math_cos := cos;
  math_asin := asin;
  math_sqrt := sqrt;
  fle := Rleb;
  fge := Rgeb
|}.

(** ** Sample requests and databases *)

Definition food : CategoryCreate := mkCategoryCreate "Food" None.
Definition meat : CategoryCreate := mkCategoryCreate "Meat" (Some 1).
Definition orphan : CategoryCreate := mkCategoryCreate "Orphan" (Some 0).

Definition food_row : Category := mkCategory 1 "Food" None 0 (Some "1"%string).

Definition meat_row : Category :=
  mkCategory 2 "Meat" (Some 1) 1 (Some "1/2"%string).

Definition food_db : Database R := db_after (create_category food) empty_db.
Definition meat_db : Database R := db_after (create_category meat) food_db.

Definition office : Building R := mkBuilding 1 "Lenina 15" 0%R 0%R.
Definition depot : Building R := mkBuilding 2 "Mira 100" 0%R 1%R.

Definition tenant : Company :=
  mkCompany 1 "Horns and Hooves" "2-222-222,3-333-333" None None None 1 1 [1].

Definition town_db : Database R :=
  mkDatabase [office; depot] (categories food_db) [tenant].

Definition firm : CompanyCreate :=
  mkCompanyCreate "Premium" ["1-111-111"; "2-222-222"]%string None None None
    1 [1] true.

Definition firm_out : CompanyOut :=
  mkCompanyOut 2 "Premium" ["1-111-111"; "2-222-222"]%string None None None
    1 true [1].

(** A request the schema lets through: one phone, the empty string. *)
Definition blank : CompanyCreate :=
  mkCompanyCreate "Blank" [EmptyString] None None None 1 [1] true.

Example test_data_paths :
  map (fun c => (cat_id c, cat_parent_id c, cat_level c, cat_path c))
    test_data_categories
  = [ (1, None, 0, Some "1"%string); (2, None, 0, Some "2"%string);
      (3, None, 0, Some "3"%string);
      (4, Some 1, 1, Some "1/4"%string); (5, Some 1, 1, Some "1/5"%string);
      (6, Some 1, 1, Some "1/6"%string);
      (7, Some 2, 1, Some "2/7"%string); (8, Some 2, 1, Some "2/8"%string);
      (9, Some 2, 1, Some "2/9"%string);
      (10, Some 9, 2, Some "2/9/10"%string);
      (11, Some 9, 2, Some "2/9/11"%string) ].
Proof. vm_compute. reflexivity. Qed.

(** * Properties *)

(** ** Strings *)

Lemma path_char_cases (c : ascii) :
  path_char c = true ->
  In c ["0"; "1"; "2"; "3"; "4"; "5"; "6"; "7"; "8"; "9"; "/"]%char.
Proof.
  destruct c as [[] [] [] [] [] [] [] []]; intros H; vm_compute in H;
    try discriminate H; simpl; tauto.
Qed.

Lemma path_char_like (c d : ascii) :
  path_char c = true ->
  Ascii.eqb c "%" = false /\ Ascii.eqb c "_" = false
  /\ Ascii.eqb (lower c) (lower d) = Ascii.eqb c d.
Proof.
  intros H. apply path_char_cases in H. simpl in H.
  repeat (destruct H as [H | H]; [subst c | ]); try contradiction;
    (split; [reflexivity | split; [reflexivity | ]]);
    destruct d as [[] [] [] [] [] [] [] []]; vm_compute; reflexivity.
Qed.

Lemma like_percent (s : string) : like (String "%" EmptyString) s = true.
Proof.
  induction s as [| c s IH]; [reflexivity | ].
  simpl. simpl in IH. rewrite IH. reflexivity.
Qed.

Lemma like_startswith (p s : string) :
  string_forallb path_char p = true ->
  like (p ++ String slash (String "%" EmptyString)) s
  = startswith (p ++ String slash EmptyString) s.
Proof.
  revert s. induction p as [| c p IH]; intros s Hp.
  - destruct s as [| d s]; [reflexivity | ].
    change (Ascii.eqb (lower slash) (lower d) && like (String "%" EmptyString) s
            = startswith (String slash EmptyString) (String d s)).
    rewrite like_percent.
    destruct (path_char_like slash d eq_refl) as (_ & _ & ->).
    simpl. destruct (Ascii.eqb slash d); reflexivity.
  - simpl in Hp. apply andb_true_iff in Hp. destruct Hp as [Hc Hp].
    destruct (path_char_like c "a" Hc) as (Hpc & Hus & _).
    simpl. rewrite Hpc.
    destruct s as [| d s]; [reflexivity | ].
    rewrite Hus.
    destruct (path_char_like c d Hc) as (_ & _ & ->).
    rewrite IH by exact Hp. reflexivity.
Qed.

Lemma startswith_spec (p s : string) :
  startswith p s = true <-> exists rest, s = (p ++ rest)%string.
Proof.
  revert s. induction p as [| a p IH]; intros s; simpl.
  - split; [intros _; exists s; reflexivity | reflexivity].
  - destruct s as [| b s].
    + split; [discriminate | intros [rest H]; discriminate H].
    + rewrite andb_true_iff, Ascii.eqb_eq, IH. split.
      * intros [-> [rest ->]]. exists rest. reflexivity.
      * intros [rest H]. injection H as -> ->. split; [reflexivity | eauto].
Qed.

Lemma append_char_assoc (a : string) (c : ascii) (b : string) :
  ((a ++ String c EmptyString) ++ b)%string = (a ++ String c b)%string.
Proof. induction a as [| x a IH]; simpl; [reflexivity | now rewrite IH]. Qed.

Lemma append_empty_r (a : string) : (a ++ EmptyString)%string = a.
Proof. induction a as [| x a IH]; simpl; [reflexivity | now rewrite IH]. Qed.

Lemma string_forallb_app (f : ascii -> bool) (a b : string) :
  string_forallb f (a ++ b) = string_forallb f a && string_forallb f b.
Proof.
  induction a as [| c a IH]; simpl; [reflexivity | ].
  rewrite IH, andb_assoc. reflexivity.
Qed.

Lemma uint_digits (u : Decimal.uint) :
  string_forallb is_digit (NilEmpty.string_of_uint u) = true.
Proof. induction u; simpl; auto. Qed.

Lemma str_digits (n : Z) : 0 < n -> string_forallb is_digit (str n) = true.
Proof.
  destruct n as [| p | p]; try lia. intros _.
  unfold str. simpl. destruct (Pos.to_uint p) eqn:E;
    try (rewrite <- E; unfold NilZero.string_of_uint; rewrite E, <- E;
         apply uint_digits).
  reflexivity.
Qed.

Lemma str_not_empty (n : Z) : str n <> EmptyString.
Proof.
  unfold str. destruct (Z.to_int n) as [u | u]; simpl; [ | discriminate].
  destruct u; discriminate.
Qed.

Lemma string_forallb_weaken (f g : ascii -> bool) (s : string) :
  (forall c, f c = true -> g c = true) ->
  string_forallb f s = true -> string_forallb g s = true.
Proof.
  intros Hfg. induction s as [| c s IH]; simpl; [reflexivity | ].
  rewrite !andb_true_iff. intros [Hc Hs]. auto.
Qed.

Lemma path_shape_chars (p : string) :
  path_shape p = true -> string_forallb path_char p = true.
Proof. unfold path_shape. rewrite andb_true_iff. intros [_ H]. exact H. Qed.

Lemma path_shape_not_empty (p : string) :
  path_shape p = true -> p <> EmptyString.
Proof.
  unfold path_shape. rewrite andb_true_iff, negb_true_iff.
  intros [H _] ->. discriminate H.
Qed.

Lemma path_shape_str (n : Z) : 0 < n -> path_shape (str n) = true.
Proof.
  intros Hn. unfold path_shape. apply andb_true_iff. split.
  - apply negb_true_iff. apply String.eqb_neq. apply str_not_empty.
  - apply string_forallb_weaken with (f := is_digit).
    + intros c Hc. unfold path_char. rewrite Hc. reflexivity.
    + apply str_digits. exact Hn.
Qed.

Lemma path_shape_child (p : string) (n : Z) :
  string_forallb path_char p = true -> 0 < n ->
  path_shape (p ++ String slash (str n)) = true.
Proof.
  intros Hp Hn. unfold path_shape. apply andb_true_iff. split.
  - apply negb_true_iff. apply String.eqb_neq.
    destruct p; discriminate.
  - rewrite string_forallb_app, Hp. simpl.
    apply path_shape_chars. apply path_shape_str. exact Hn.
Qed.

(** ** Categories *)

Section CategoryProperties.

Context {F : Type}.

Lemma next_id_above (ids : list Z) (i : Z) : In i ids -> i < next_id ids.
Proof.
  unfold next_id. induction ids as [| j ids IH]; cbn [fold_right In]; [tauto | ].
  intros [-> | H]; [lia | ]. specialize (IH H). lia.
Qed.

Lemma next_id_positive (ids : list Z) : 0 < next_id ids.
Proof.
  unfold next_id. induction ids as [| j ids IH]; cbn [fold_right]; lia.
Qed.

Lemma next_id_fresh (cats : list Category) (c : Category) :
  In c cats -> (cat_id c =? next_id (map cat_id cats)) = false.
Proof.
  intros H. apply Z.eqb_neq.
  pose proof (next_id_above (map cat_id cats) (cat_id c) (in_map cat_id _ _ H)).
  lia.
Qed.

Lemma assign_fresh (cats : list Category) (i : Z) (c : Category) :
  (forall r, In r cats -> (cat_id r =? i) = false) ->
  map (fun r => if cat_id r =? i then c else r) cats = cats.
Proof.
  induction cats as [| r cats IH]; intros H; simpl; [reflexivity | ].
  rewrite (H r (or_introl eq_refl)). f_equal. apply IH.
  intros r' Hr'. apply H. right. exact Hr'.
Qed.

Lemma find_app_found {A} (p : A -> bool) (l l' : list A) (a : A) :
  find p l = Some a -> find p (l ++ l') = Some a.
Proof.
  induction l as [| x l IH]; simpl; [discriminate | ].
  destruct (p x); auto.
Qed.

Lemma find_app_missing {A} (p : A -> bool) (l l' : list A) :
  find p l = None -> find p (l ++ l') = find p l'.
Proof.
  induction l as [| x l IH]; simpl; [reflexivity | ].
  destruct (p x); [discriminate | auto].
Qed.

Lemma create_category_outcome (d : Database F) (category : CategoryCreate) :
  let row := inserted_row d category in
  let stored c := set_categories (categories d ++ [c]) d in
  match truthy_int (cc_parent_id category) with
  | Some pid =>
      match find_category d pid with
      | None =>
          run (create_category category) d
          = (Raise (mkHTTPException 404 ParentCategoryNotFound),
             mkSession d [Select TCategories])
      | Some parent =>
          let c :=
            with_path_level row
              (match truthy_str (cat_path parent) with
               | Some ppath => ppath ++ String slash (str (cat_id row))
               | None => str (cat_id parent) ++ String slash (str (cat_id row))
               end)%string
              (cat_level parent + 1) in
          run (create_category category) d
          = (Ok c,
             mkSession (stored c)
               [Select TCategories; Commit (stored row);
                Select TCategories; Commit (stored c)])
      end
  | None =>
      let c := with_path_level row (str (cat_id row)) 0 in
      run (create_category category) d
      = (Ok c, mkSession (stored c) [Commit (stored row); Commit (stored c)])
  end.
Proof.
  intros row stored.
  unfold run, create_category, update_category_path, bind.
  destruct (truthy_int (cc_parent_id category)) as [pid | ] eqn:Hpid.
  - unfold find_category. simpl.
    destruct (find (fun c => cat_id c =? pid) (categories d)) as [parent | ] eqn:Hfind;
      [ | reflexivity].
    simpl. rewrite Hpid. simpl.
    rewrite (find_app_found _ _ _ _ Hfind). simpl.
    rewrite map_app, assign_fresh by (intros r Hr; apply next_id_fresh; exact Hr).
    simpl. rewrite Z.eqb_refl. reflexivity.
  - simpl. rewrite Hpid. simpl.
    rewrite map_app, assign_fresh by (intros r Hr; apply next_id_fresh; exact Hr).
    simpl. rewrite Z.eqb_refl. reflexivity.
Qed.

Lemma find_none_all {A} (p : A -> bool) (l : list A) :
  (forall x, In x l -> p x = false) -> find p l = None.
Proof.
  induction l as [| x l IH]; intros H; simpl; [reflexivity | ].
  rewrite (H x (or_introl eq_refl)). apply IH. intros y Hy. apply H. now right.
Qed.

Lemma truthy_int_some (o : option Z) (n : Z) :
  truthy_int o = Some n <-> o = Some n /\ n <> 0.
Proof.
  unfold truthy_int. destruct o as [m | ].
  - destruct (Z.eqb_spec m 0) as [-> | Hm]; split.
    + discriminate.
    + intros [[= <-] H]. contradiction.
    + intros [= ->]. auto.
    + intros [[= ->] _]. reflexivity.
  - split; [discriminate | intros [H _]; discriminate H].
Qed.

Lemma truthy_int_none (o : option Z) :
  truthy_int o = None <-> o = None \/ o = Some 0.
Proof.
  unfold truthy_int. destruct o as [m | ].
  - destruct (Z.eqb_spec m 0) as [-> | Hm]; split.
    + auto.
    + reflexivity.
    + discriminate.
    + intros [H | H]; [discriminate H | injection H as ->; contradiction].
  - split; auto.
Qed.

Lemma truthy_str_shape (p : string) :
  path_shape p = true -> truthy_str (Some p) = Some p.
Proof.
  intros H. apply path_shape_not_empty in H. destruct p; [contradiction | reflexivity].
Qed.

Lemma categories_ok_test_data : categories_ok test_data_categories.
Proof.
  split.
  - replace (map cat_id test_data_categories)
      with (nodup Z.eq_dec (map cat_id test_data_categories))
      by (vm_compute; reflexivity).
    apply NoDup_nodup.
  - assert (H : forallb
                  (fun c => (0 <? cat_id c)
                            && match cat_path c with
                               | Some p => path_shape p
                               | None => false
                               end)
                  test_data_categories = true)
      by (vm_compute; reflexivity).
    rewrite forallb_forall in H. intros c Hc. specialize (H c Hc).
    apply andb_true_iff in H. destruct H as [Hid Hp]. split.
    + apply Z.ltb_lt. exact Hid.
    + destruct (cat_path c) as [p | ]; [eauto | discriminate].
Qed.

Lemma categories_ok_add (cats : list Category) (c : Category) (p : string) :
  categories_ok cats ->
  cat_id c = next_id (map cat_id cats) ->
  cat_path c = Some p -> path_shape p = true ->
  categories_ok (cats ++ [c]).
Proof.
  intros [Hnd Hall] Hid Hp Hshape. split.
  - rewrite map_app. simpl. apply NoDup_app.
    + exact Hnd.
    + constructor; [simpl; tauto | constructor].
    + intros i Hi [<- | []]. apply next_id_above in Hi. lia.
  - intros r Hr. apply in_app_or in Hr. destruct Hr as [Hr | [<- | []]].
    + apply Hall. exact Hr.
    + split; [rewrite Hid; apply next_id_positive | eauto].
Qed.

Lemma create_category_keeps_ok (d : Database F) (category : CategoryCreate) :
  categories_ok (categories d) ->
  categories_ok (categories (db_after (create_category category) d)).
Proof.
  intros Hok. unfold db_after.
  pose proof (create_category_outcome d category) as H. cbv zeta in H.
  destruct (truthy_int (cc_parent_id category)) as [pid | ].
  - destruct (find_category d pid) as [parent | ] eqn:Hfind; rewrite H; simpl.
    + apply find_some in Hfind. destruct Hfind as [Hin _].
      destruct Hok as [Hnd Hall].
      destruct (Hall parent Hin) as (_ & pp & Hpp & Hshape).
      eapply categories_ok_add; [split; eassumption | reflexivity | reflexivity | ].
      rewrite Hpp, (truthy_str_shape pp Hshape).
      apply path_shape_child; [apply path_shape_chars; exact Hshape | ].
      apply next_id_positive.
    + exact Hok.
  - rewrite H. simpl.
    eapply categories_ok_add; [exact Hok | reflexivity | reflexivity | ].
    apply path_shape_str. apply next_id_positive.
Qed.

Lemma reachable_categories_ok (d : Database F) :
  reachable d -> categories_ok (categories d).
Proof.
  induction 1 as [| d category _ IH | d d' _ _ Hd' | d d' _ IH Hd'].
  - split; [constructor | intros c []].
  - apply create_category_keeps_ok. exact IH.
  - rewrite Hd'. apply categories_ok_test_data.
  - rewrite Hd'. exact IH.
Qed.

(** C1: from a reachable database, the row a successful [create_category]
    stores satisfies the materialized-path invariant: under a parent, its
    path is the parent's path, a slash and its own id, and its level is the
    parent's plus one; with no parent, its path is its id and its level 0.
    The state that holds this row is the one the handler's last commit has
    made durable. *)
Theorem create_category_path_invariant
    (d : Database F) (category : CategoryCreate) (c : Category) :
  reachable d ->
  result_of (create_category category) d = Ok c ->
  find_category (db_after (create_category category) d) (cat_id c) = Some c
  /\ path_invariant (db_after (create_category category) d) c
  /\ exists earlier,
       durable_states (snd (run (create_category category) d))
       = earlier ++ [db_after (create_category category) d].
Proof.
  intros Hreach. apply reachable_categories_ok in Hreach.
  destruct Hreach as [Hnd Hall].
  unfold result_of, db_after.
  pose proof (create_category_outcome d category) as H. cbv zeta in H.
  assert (Hnew : forall c', cat_id c' = next_id (map cat_id (categories d)) ->
            find (fun r => cat_id r =? next_id (map cat_id (categories d)))
              (categories d ++ [c']) = Some c').
  { intros c' Hc'. rewrite find_app_missing.
    - simpl. rewrite Hc', Z.eqb_refl. reflexivity.
    - apply find_none_all. intros x Hx. apply next_id_fresh. exact Hx. }
  destruct (truthy_int (cc_parent_id category)) as [pid | ] eqn:Hpid.
  - apply truthy_int_some in Hpid. destruct Hpid as [Hpid Hnz].
    destruct (find_category d pid) as [parent | ] eqn:Hfind; rewrite H; simpl;
      [ | discriminate].
    intros [= <-]. split; [ | split; [ | eexists [_]; reflexivity]].
    + unfold find_category. simpl. apply Hnew. reflexivity.
    + unfold find_category in Hfind.
      unfold path_invariant, parent_of, find_category. simpl. rewrite Hpid.
      rewrite (find_app_found _ _ _ _ Hfind).
      apply find_some in Hfind. destruct Hfind as [Hin _].
      destruct (Hall parent Hin) as (_ & pp & Hpp & Hshape).
      exists pp. rewrite Hpp, (truthy_str_shape pp Hshape). auto.
  - rewrite H. simpl. intros [= <-].
    split; [ | split; [ | eexists [_]; reflexivity]].
    + unfold find_category. simpl. apply Hnew. reflexivity.
    + unfold path_invariant, parent_of, find_category. simpl.
      apply truthy_int_none in Hpid. destruct Hpid as [-> | ->]; [auto | ].
      rewrite find_app_missing.
      * simpl. pose proof (next_id_positive (map cat_id (categories d))).
        destruct (Z.eqb_spec (next_id (map cat_id (categories d))) 0); [lia | auto].
      * apply find_none_all. intros x Hx. apply Z.eqb_neq.
        destruct (Hall x Hx) as [Hpos _]. lia.
Qed.

(** X7: the handler rejects a parent id, a key of the store other than 0,
    that names no category: 404 after the one lookup, nothing written,
    nothing committed. *)
Lemma create_category_unknown_parent
    (d : Database F) (category : CategoryCreate) (pid : Z) :
  cc_parent_id category = Some pid -> fits_int64 pid = true -> pid <> 0 ->
  find_category d pid = None ->
  run (create_category category) d
  = (Raise (mkHTTPException 404 ParentCategoryNotFound),
     mkSession d [Select TCategories]).
Proof.
  intros Hpid _ Hnz Hfind.
  pose proof (create_category_outcome d category) as H. cbv zeta in H.
  rewrite (proj2 (truthy_int_some _ _) (conj Hpid Hnz)), Hfind in H. exact H.
Qed.

(** A parent id of 0 is not looked up at all: the row is stored with
    [parent_id = 0] and the path of a root. *)
Lemma create_category_zero_is_root
    (d : Database F) (category : CategoryCreate) :
  cc_parent_id category = Some 0 ->
  exists c,
    run (create_category category) d
    = (Ok c,
       mkSession (set_categories (categories d ++ [c]) d)
         [Commit (set_categories (categories d ++ [inserted_row d category]) d);
          Commit (set_categories (categories d ++ [c]) d)])
    /\ cat_parent_id c = Some 0
    /\ cat_path c = Some (str (cat_id c)).
Proof.
  intros Hpid.
  pose proof (create_category_outcome d category) as H. cbv zeta in H.
  rewrite Hpid in H. simpl in H. eexists. split; [exact H | ].
  split; [exact Hpid | reflexivity].
Qed.

(** C5, as the code has it: a successful creation commits twice.  The first
    commit makes the new row durable with a NULL path, the second stores
    path and level; a rejected request commits nothing and writes
    nothing. *)
Theorem create_category_commits (d : Database F) (category : CategoryCreate) :
  match result_of (create_category category) d with
  | Ok c =>
      durable_states (snd (run (create_category category) d))
      = [set_categories (categories d ++ [inserted_row d category]) d;
         db_after (create_category category) d]
      /\ categories (db_after (create_category category) d)
         = categories d ++ [c]
      /\ cat_id c = cat_id (inserted_row d category)
      /\ cat_path (inserted_row d category) = None
      /\ cat_level (inserted_row d category) = 0
      /\ cat_path c <> None
  | Raise _ =>
      durable_states (snd (run (create_category category) d)) = []
      /\ db_after (create_category category) d = d
  end.
Proof.
  unfold result_of, db_after.
  pose proof (create_category_outcome d category) as H. cbv zeta in H.
  destruct (truthy_int (cc_parent_id category)) as [pid | ].
  - destruct (find_category d pid) as [parent | ]; rewrite H; simpl.
    + repeat split; discriminate.
    + split; reflexivity.
  - rewrite H. simpl. repeat split; discriminate.
Qed.

(** A selection of rows with distinct ids has distinct ids. *)
Lemma selected_ids_distinct (keep : Category -> bool) (rows : list Category) :
  NoDup (map cat_id rows) -> NoDup (map cat_id (filter keep rows)).
Proof.
  induction rows as [| r rows IH]; intros Hrows; simpl; [constructor | ].
  apply NoDup_cons_iff in Hrows. destruct Hrows as [Hr Hrows].
  destruct (keep r); [ | exact (IH Hrows)].
  simpl. apply NoDup_cons_iff. split; [ | exact (IH Hrows)].
  rewrite in_map_iff. intros (r' & Hid & Hin).
  apply Hr. rewrite <- Hid. apply in_map.
  apply filter_In in Hin. exact (proj1 Hin).
Qed.

(** What the two-branch filter of the subtree query keeps, for a target
    path of digits and slashes. *)
Lemma path_matches_spec (tpath : string) (c : Category) :
  path_shape tpath = true ->
  path_matches tpath c = true <->
  exists p, cat_path c = Some p
    /\ (p = tpath \/ exists rest, p = (tpath ++ String slash rest)%string).
Proof.
  intros Hshape. unfold path_matches.
  destruct (cat_path c) as [p | ].
  - rewrite like_startswith by (apply path_shape_chars; exact Hshape).
    rewrite orb_true_iff, startswith_spec, String.eqb_eq. split.
    + intros [[rest ->] | ->]; eexists; split; try reflexivity.
      * right. exists rest. apply append_char_assoc.
      * left. reflexivity.
    + intros (q & [= <-] & [-> | [rest ->]]); [right; reflexivity | left].
      exists rest. symmetry. apply append_char_assoc.
  - split; [discriminate | intros (q & Hq & _); discriminate Hq].
Qed.

Lemma get_all_child_category_ids_run
    (d : Database F) (category_id : Z) :
  run (get_all_child_category_ids category_id) d
  = match find_category d category_id with
    | Some category =>
        match truthy_str (cat_path category) with
        | Some path =>
            (Ok (category_id ::
                 map cat_id
                   (filter (fun child => negb (cat_id child =? category_id))
                      (filter (path_matches path) (categories d)))),
             mkSession d [Select TCategories; Select TCategories])
        | None => (Ok [category_id], mkSession d [Select TCategories])
        end
    | None => (Ok [category_id], mkSession d [Select TCategories])
    end.
Proof.
  unfold run, get_all_child_category_ids, bind, find_category. simpl.
  destruct (find _ (categories d)) as [category | ]; [ | reflexivity].
  destruct (truthy_str (cat_path category)); reflexivity.
Qed.

(** C2: from a reachable database, resolving the subtree of an existing
    category gives a list without repetitions that holds the id itself and
    exactly the ids of the rows whose path is the target's path or starts
    with the target's path and a slash. *)
Theorem get_all_child_category_ids_subtree
    (d : Database F) (category_id : Z) (target : Category) :
  reachable d ->
  find_category d category_id = Some target ->
  exists ids,
    result_of (get_all_child_category_ids category_id) d = Ok ids
    /\ NoDup ids
    /\ In category_id ids
    /\ forall i, In i ids <->
         exists c, In c (categories d) /\ cat_id c = i /\ path_under target c.
Proof.
  intros Hreach Hfind. apply reachable_categories_ok in Hreach.
  destruct Hreach as [Hnd Hall].
  unfold result_of. rewrite get_all_child_category_ids_run, Hfind.
  unfold find_category in Hfind. apply find_some in Hfind.
  destruct Hfind as [Hin Hid]. apply Z.eqb_eq in Hid.
  destruct (Hall target Hin) as (_ & tpath & Htp & Hshape).
  rewrite Htp, (truthy_str_shape tpath Hshape). simpl.
  eexists. split; [reflexivity | ]. split; [ | split].
  - constructor.
    + rewrite in_map_iff. intros (c & Hc & Hcin).
      apply filter_In in Hcin. destruct Hcin as [_ Hne].
      rewrite Hc, Z.eqb_refl in Hne. discriminate Hne.
    + apply selected_ids_distinct, selected_ids_distinct. exact Hnd.
  - left. reflexivity.
  - intros i. split.
    + intros [<- | Hi].
      * exists target. split; [exact Hin | ]. split; [exact Hid | ].
        exists tpath, tpath. auto.
      * apply in_map_iff in Hi. destruct Hi as (c & Hc & Hcin).
        apply filter_In in Hcin. destruct Hcin as [Hcin _].
        apply filter_In in Hcin. destruct Hcin as [Hcin Hm].
        apply (path_matches_spec tpath c Hshape) in Hm.
        destruct Hm as (p & Hp & Hcases).
        exists c. split; [exact Hcin | ]. split; [exact Hc | ].
        exists tpath, p. auto.
    + intros (c & Hcin & Hc & tp & p & Htp' & Hp & Hcases).
      rewrite Htp in Htp'. injection Htp' as <-.
      destruct (Z.eqb_spec i category_id) as [-> | Hne]; [left; reflexivity | ].
      right. apply in_map_iff. exists c. split; [exact Hc | ].
      apply filter_In. split.
      * apply filter_In. split; [exact Hcin | ].
        apply (path_matches_spec tpath c Hshape). eauto.
      * rewrite Hc. apply negb_true_iff, Z.eqb_neq. exact Hne.
Qed.

(** C10: for a category id, a key of the store, that names no category,
    or names a category whose path is NULL or empty, the helper raises
    nothing and answers with that id alone. *)
Theorem get_all_child_category_ids_alone (d : Database F) (category_id : Z) :
  fits_int64 category_id = true ->
  find_category d category_id = None
  \/ (exists c, find_category d category_id = Some c
                /\ (cat_path c = None \/ cat_path c = Some EmptyString)) ->
  result_of (get_all_child_category_ids category_id) d = Ok [category_id]
  /\ db_after (get_all_child_category_ids category_id) d = d.
Proof.
  intros _. unfold result_of, db_after. rewrite get_all_child_category_ids_run.
  intros [-> | (c & -> & [-> | ->])]; split; reflexivity.
Qed.

(** *** The invariant on the whole table *)

Lemma row_ok_sound (d : Database F) (c : Category) :
  row_ok (categories d) c = true -> path_invariant d c.
Proof.
  unfold row_ok, path_invariant, parent_of, find_category.
  destruct (cat_parent_id c) as [pid | ].
  - destruct (find _ (categories d)) as [p | ].
    + destruct (cat_path p) as [pp | ]; [ | discriminate].
      destruct (cat_path c) as [cp | ]; [ | discriminate].
      rewrite andb_true_iff, String.eqb_eq, Z.eqb_eq. intros [-> ->].
      exists pp. auto.
    + rewrite andb_true_iff. intros [_ H].
      destruct (cat_path c) as [cp | ]; [ | discriminate].
      rewrite andb_true_iff, String.eqb_eq, Z.eqb_eq in H.
      destruct H as [-> ->]. auto.
  - destruct (cat_path c) as [cp | ]; [ | discriminate].
    rewrite andb_true_iff, String.eqb_eq, Z.eqb_eq. intros [-> ->]. auto.
Qed.

Lemma row_ok_grows (cats : list Category) (new c : Category) :
  0 < cat_id new ->
  row_ok cats c = true -> row_ok (cats ++ [new]) c = true.
Proof.
  intros Hnew. unfold row_ok.
  destruct (cat_parent_id c) as [pid | ]; [ | auto].
  destruct (find (fun r => cat_id r =? pid) cats) as [p | ] eqn:Hfind.
  - rewrite (find_app_found _ _ _ _ Hfind). auto.
  - rewrite (find_app_missing _ _ _ Hfind). simpl.
    rewrite andb_true_iff. intros [Hzero Hroot]. apply Z.eqb_eq in Hzero.
    subst pid. destruct (Z.eqb_spec (cat_id new) 0); [lia | ].
    rewrite Hroot. reflexivity.
Qed.

Lemma create_category_keeps_rows_ok (d : Database F) (category : CategoryCreate) :
  categories_ok (categories d) ->
  (forall c, In c (categories d) -> row_ok (categories d) c = true) ->
  forall c, In c (categories (db_after (create_category category) d)) ->
    row_ok (categories (db_after (create_category category) d)) c = true.
Proof.
  intros [Hnd Hall] Hrows. unfold db_after.
  pose proof (create_category_outcome d category) as H. cbv zeta in H.
  pose proof (next_id_positive (map cat_id (categories d))) as Hpos.
  assert (Hzero : find (fun r => cat_id r =? 0) (categories d) = None).
  { apply find_none_all. intros x Hx. apply Z.eqb_neq.
    destruct (Hall x Hx) as [Hx0 _]. lia. }
  destruct (truthy_int (cc_parent_id category)) as [pid | ] eqn:Hpid.
  - apply truthy_int_some in Hpid. destruct Hpid as [Hpid Hnz].
    destruct (find_category d pid) as [parent | ] eqn:Hfind; rewrite H; simpl;
      [ | exact Hrows].
    intros c Hc. apply in_app_or in Hc. destruct Hc as [Hc | [<- | []]].
    + apply row_ok_grows; [exact Hpos | apply Hrows; exact Hc].
    + unfold find_category in Hfind. unfold row_ok. simpl. rewrite Hpid.
      rewrite (find_app_found _ _ _ _ Hfind).
      apply find_some in Hfind. destruct Hfind as [Hin _].
      destruct (Hall parent Hin) as (_ & pp & Hpp & Hshape).
      rewrite Hpp, (truthy_str_shape pp Hshape), String.eqb_refl, Z.eqb_refl.
      reflexivity.
  - rewrite H. simpl.
    intros c Hc. apply in_app_or in Hc. destruct Hc as [Hc | [<- | []]].
    + apply row_ok_grows; [exact Hpos | apply Hrows; exact Hc].
    + unfold row_ok. simpl. rewrite String.eqb_refl. simpl.
      apply truthy_int_none in Hpid. destruct Hpid as [-> | ->]; [reflexivity | ].
      rewrite (find_app_missing _ _ _ Hzero). simpl.
      destruct (Z.eqb_spec (next_id (map cat_id (categories d))) 0);
        [lia | reflexivity].
Qed.

Lemma reachable_rows_ok (d : Database F) :
  reachable d -> forall c, In c (categories d) -> row_ok (categories d) c = true.
Proof.
  induction 1 as [| d category Hd IH | d d' _ _ Hd' | d d' _ IH Hd'].
  - intros c [].
  - apply create_category_keeps_rows_ok; [ | exact IH].
    apply reachable_categories_ok. exact Hd.
  - rewrite Hd'. apply forallb_forall. vm_compute. reflexivity.
  - rewrite Hd'. exact IH.
Qed.

(** In every reachable database, every category satisfies the
    materialized-path invariant. *)
Lemma reachable_path_invariant (d : Database F) (c : Category) :
  reachable d -> In c (categories d) -> path_invariant d c.
Proof.
  intros Hreach Hin. apply row_ok_sound.
  apply reachable_rows_ok; assumption.
Qed.

End CategoryProperties.

(** *** At sample inputs *)

Lemma create_category_path_invariant_witness :
  reachable food_db
  /\ result_of (create_category meat) food_db = Ok meat_row
  /\ find_category (db_after (create_category meat) food_db) (cat_id meat_row)
     = Some meat_row
  /\ path_invariant (db_after (create_category meat) food_db) meat_row
  /\ exists earlier,
       durable_states (snd (run (create_category meat) food_db))
       = earlier ++ [db_after (create_category meat) food_db].
Proof.
  assert (Hreach : reachable food_db)
    by (apply reach_create_category, reach_empty).
  split; [exact Hreach | ]. split; [reflexivity | ].
  apply (create_category_path_invariant food_db meat meat_row);
    [exact Hreach | reflexivity].
Defined.

(** The scenario of the spec: "Food" becomes the root 1 with path "1",
    "Meat" under it gets path "1/2" and level 1, and the subtree of "Food"
    is the two of them. *)
Example food_meat_scenario :
  map (fun c => (cat_id c, cat_level c, cat_path c)) (categories meat_db)
  = [(1, 0, Some "1"%string); (2, 1, Some "1/2"%string)]
  /\ result_of (get_all_child_category_ids 1) meat_db = Ok [1; 2]
  /\ result_of (get_all_child_category_ids 2) meat_db = Ok [2].
Proof. repeat split; reflexivity. Qed.

Lemma get_all_child_category_ids_subtree_witness :
  reachable meat_db
  /\ find_category meat_db 1 = Some (mkCategory 1 "Food" None 0 (Some "1"%string))
  /\ exists ids,
       result_of (get_all_child_category_ids 1) meat_db = Ok ids
       /\ NoDup ids
       /\ In 1 ids
       /\ forall i, In i ids <->
            exists c, In c (categories meat_db) /\ cat_id c = i
                      /\ path_under (mkCategory 1 "Food" None 0 (Some "1"%string)) c.
Proof.
  assert (Hreach : reachable meat_db)
    by (apply reach_create_category, reach_create_category, reach_empty).
  split; [exact Hreach | ]. split; [reflexivity | ].
  apply (get_all_child_category_ids_subtree meat_db 1); [exact Hreach | reflexivity].
Defined.

Lemma get_all_child_category_ids_alone_witness :
  fits_int64 7 = true
  /\ (find_category food_db 7 = None
      \/ (exists c, find_category food_db 7 = Some c
                    /\ (cat_path c = None \/ cat_path c = Some EmptyString)))
  /\ result_of (get_all_child_category_ids 7) food_db = Ok [7]
  /\ db_after (get_all_child_category_ids 7) food_db = food_db.
Proof.
  assert (Hfit : fits_int64 7 = true) by reflexivity.
  assert (H : find_category food_db 7 = None) by reflexivity.
  split; [exact Hfit | ]. split; [left; exact H | ].
  apply (get_all_child_category_ids_alone food_db 7 Hfit). left. exact H.
Defined.

(** The prefix match is exact: "12" is no ancestor of "123", and "1/2" is
    none of "1/23". *)
Example prefix_match_is_exact :
  path_matches "12" (mkCategory 123 "other" None 0 (Some "123"%string)) = false
  /\ path_matches "1/2" (mkCategory 23 "other" (Some 1) 1 (Some "1/23"%string))
     = false
  /\ path_matches "1/2" (mkCategory 5 "child" (Some 2) 2 (Some "1/2/5"%string))
     = true.
Proof. repeat split; reflexivity. Qed.

(** C6 at the failing input: a request with [parent_id = 0], which names
    no category of the empty store, is not rejected; the row is stored with
    its dangling parent id. *)
Theorem create_category_parent_zero :
  find_category (empty_db : Database R) 0 = None
  /\ result_of (create_category orphan) (empty_db : Database R)
     = Ok (mkCategory 1 "Orphan" (Some 0) 0 (Some "1"%string))
  /\ categories (db_after (create_category orphan) (empty_db : Database R))
     = [mkCategory 1 "Orphan" (Some 0) 0 (Some "1"%string)].
Proof. repeat split; reflexivity. Qed.

(** C5 as stated fails: creating "Food" in the empty store makes durable a
    state that is neither the store before nor the store after, the one
    where the row is there without its path; the handler is not atomic. *)
Lemma create_category_not_atomic :
  (exists seen,
     In seen (durable_states (snd (run (create_category food)
                                     (empty_db : Database R))))
     /\ categories seen = [mkCategory 1 "Food" None 0 None]
     /\ seen <> empty_db
     /\ seen <> db_after (create_category food) empty_db)
  /\ ~ atomic (create_category food) (empty_db : Database R).
Proof.
  assert (Hin : In (mkDatabase [] [mkCategory 1 "Food" None 0 None] [])
                  (durable_states (snd (run (create_category food)
                                          (empty_db : Database R)))))
    by (left; reflexivity).
  assert (Hpre : mkDatabase [] [mkCategory 1 "Food" None 0 None] []
                 <> (empty_db : Database R)) by discriminate.
  assert (Hpost : mkDatabase [] [mkCategory 1 "Food" None 0 None] []
                  <> db_after (create_category food) (empty_db : Database R))
    by (vm_compute; discriminate).
  split.
  - eexists. split; [exact Hin | ]. split; [reflexivity | ]. split; assumption.
  - intros H. destruct (H _ Hin) as [E | E]; contradiction.
Qed.

(** ** Buildings *)

Section BuildingProperties.

Context {F : Type}.

Lemma delete_building_run (d : Database F) (building_id : Z) :
  run (delete_building building_id) d
  = match find_building d building_id with
    | None =>
        (Raise (mkHTTPException 404 BuildingNotFound),
         mkSession d [Select TBuildings])
    | Some b =>
        if companies_count d building_id >? 0 then
          (Raise (mkHTTPException 400
                    (CannotDeleteBuilding (companies_count d building_id))),
           mkSession d [Select TBuildings; Select TCompanies])
        else
          let d' :=
            mkDatabase
              (filter (fun r => negb (bld_id r =? bld_id b)) (buildings d))
              (categories d)
              (filter (fun c => negb (co_building_id c =? bld_id b))
                 (companies d)) in
          (Ok building_deleted,
           mkSession d' [Select TBuildings; Select TCompanies; Commit d'])
    end.
Proof.
  unfold run, delete_building, bind, find_building, companies_count. simpl.
  destruct (find _ (buildings d)) as [b | ]; [ | reflexivity].
  simpl. destruct (_ >? 0); reflexivity.
Qed.

Lemma filter_none_length {A} (p : A -> bool) (l : list A) :
  List.length (filter p l) = 0%nat -> filter (fun x => negb (p x)) l = l.
Proof.
  induction l as [| x l IH]; simpl; [reflexivity | ].
  destruct (p x); simpl; [discriminate | ].
  intros H. f_equal. apply IH. exact H.
Qed.

Lemma find_filter_other (l : list (Building F)) (i j : Z) :
  j <> i ->
  find (fun b => bld_id b =? j) (filter (fun r => negb (bld_id r =? i)) l)
  = find (fun b => bld_id b =? j) l.
Proof.
  intros Hne. induction l as [| x l IH]; simpl; [reflexivity | ].
  destruct (Z.eqb_spec (bld_id x) i) as [Hx | Hx]; simpl.
  - destruct (Z.eqb_spec (bld_id x) j); [lia | exact IH].
  - rewrite IH. reflexivity.
Qed.

Lemma find_filter_same (l : list (Building F)) (i : Z) :
  find (fun b => bld_id b =? i) (filter (fun r => negb (bld_id r =? i)) l)
  = None.
Proof.
  induction l as [| x l IH]; simpl; [reflexivity | ].
  destruct (Z.eqb_spec (bld_id x) i) as [Hx | Hx]; simpl; [exact IH | ].
  destruct (Z.eqb_spec (bld_id x) i); [contradiction | exact IH].
Qed.

(** C7: deleting an existing building is refused with status 400 -- the
    store left as it was, nothing committed -- while companies refer to it;
    with no such company the building is deleted, and nothing else is. *)
Theorem delete_building_guarded
    (d : Database F) (building_id : Z) (b : Building F) :
  find_building d building_id = Some b ->
  (0 < companies_count d building_id ->
     result_of (delete_building building_id) d
     = Raise (mkHTTPException 400
                (CannotDeleteBuilding (companies_count d building_id)))
     /\ db_after (delete_building building_id) d = d
     /\ durable_states (snd (run (delete_building building_id) d)) = [])
  /\ (companies_count d building_id = 0 ->
        result_of (delete_building building_id) d = Ok building_deleted
        /\ find_building (db_after (delete_building building_id) d) building_id
           = None
        /\ (forall j, j <> building_id ->
              find_building (db_after (delete_building building_id) d) j
              = find_building d j)
        /\ companies (db_after (delete_building building_id) d) = companies d
        /\ categories (db_after (delete_building building_id) d)
           = categories d
        /\ durable_states (snd (run (delete_building building_id) d))
           = [db_after (delete_building building_id) d]).
Proof.
  intros Hfind. unfold result_of, db_after.
  rewrite delete_building_run, Hfind.
  assert (Hid : bld_id b = building_id).
  { unfold find_building in Hfind. apply find_some in Hfind.
    apply Z.eqb_eq. exact (proj2 Hfind). }
  split.
  - intros Hpos. apply Z.gtb_lt in Hpos. rewrite Hpos. repeat split.
  - intros Hzero. rewrite Hzero. simpl. rewrite Hid.
    unfold find_building. simpl. repeat split.
    + apply find_filter_same.
    + intros j Hj. apply find_filter_other. exact Hj.
    + apply filter_none_length. unfold companies_count in Hzero. lia.
Qed.

End BuildingProperties.

Lemma delete_building_guarded_witness :
  find_building town_db 1 = Some office
  /\ 0 < companies_count town_db 1
  /\ result_of (delete_building 1) town_db
     = Raise (mkHTTPException 400 (CannotDeleteBuilding 1))
  /\ db_after (delete_building 1) town_db = town_db.
Proof.
  assert (Hfind : find_building town_db 1 = Some office) by reflexivity.
  assert (Hpos : 0 < companies_count town_db 1) by reflexivity.
  split; [exact Hfind | ]. split; [exact Hpos | ].
  destruct (proj1 (delete_building_guarded town_db 1 office Hfind) Hpos)
    as (Hres & Hdb & _).
  split; [exact Hres | exact Hdb].
Defined.

Example delete_empty_building :
  companies_count town_db 2 = 0
  /\ result_of (delete_building 2) town_db = Ok building_deleted
  /\ buildings (db_after (delete_building 2) town_db) = [office]
  /\ companies (db_after (delete_building 2) town_db) = [tenant].
Proof. repeat split; reflexivity. Qed.

(** ** Companies *)

Lemma split_acc_piece (sep : ascii) (piece p rest : string) :
  contains_char sep p = false ->
  split_acc sep piece (p ++ rest) = split_acc sep (piece ++ p) rest.
Proof.
  revert piece. induction p as [| c p IH]; intros piece Hp; simpl.
  - rewrite append_empty_r. reflexivity.
  - simpl in Hp. apply orb_false_iff in Hp. destruct Hp as [Hc Hp].
    rewrite Ascii.eqb_sym, Hc, IH by exact Hp.
    rewrite append_char_assoc. reflexivity.
Qed.

(** Splitting undoes joining, for a list that is not empty and whose
    pieces hold no separator. *)
Lemma split_join (sep : ascii) (parts : list string) :
  parts <> [] ->
  (forall p, In p parts -> contains_char sep p = false) ->
  split sep (join sep parts) = parts.
Proof.
  unfold split. induction parts as [| p rest IH]; intros Hne Hall;
    [contradiction | ].
  assert (Hp : contains_char sep p = false) by (apply Hall; now left).
  destruct rest as [| q rest].
  - simpl. rewrite <- (append_empty_r p) at 1.
    rewrite split_acc_piece by exact Hp. reflexivity.
  - change (join sep (p :: q :: rest))
      with (p ++ String sep (join sep (q :: rest)))%string.
    rewrite split_acc_piece by exact Hp.
    simpl split_acc at 1. rewrite Ascii.eqb_refl. f_equal.
    apply IH; [discriminate | ]. intros x Hx. apply Hall. now right.
Qed.

Lemma join_not_empty (sep : ascii) (parts : list string) :
  parts <> [] -> parts <> [EmptyString] -> join sep parts <> EmptyString.
Proof.
  destruct parts as [| p [| q rest]]; intros Hne Hone.
  - contradiction.
  - simpl. intros ->. contradiction.
  - simpl. destruct p; discriminate.
Qed.

Section CompanyProperties.

Context {F : Type} {PF : PyFloat F}.

Lemma next_id_company_fresh (cs : list Company) (c : Company) :
  In c cs -> (co_id c =? next_id (map co_id cs)) = false.
Proof.
  intros H. apply Z.eqb_neq.
  pose proof (next_id_above (map co_id cs) (co_id c) (in_map co_id _ _ H)).
  lia.
Qed.

(** What a successful [create_company] returns and stores. *)
Lemma create_company_ok (d : Database F) (company : CompanyCreate)
    (out : CompanyOut) :
  result_of (create_company company) d = Ok out ->
  exists row,
    out = convert_unguarded row
    /\ co_id row = next_id (map co_id (companies d))
    /\ co_phones row = join comma (cr_phones company)
    /\ companies (db_after (create_company company) d) = companies d ++ [row]
    /\ buildings (db_after (create_company company) d) = buildings d
    /\ categories (db_after (create_company company) d) = categories d.
Proof.
  unfold result_of, db_after, run, create_company, bind. simpl.
  destruct (find _ (buildings d)) as [b | ]; simpl; [ | discriminate].
  destruct (negb _); simpl; [discriminate | ].
  intros [= <-]. eexists. split; [reflexivity | ]. repeat split.
Qed.

(** C8, as the code has it: the phones a company is created with come back
    from [get_company] as they were given, when the list is not empty, no
    phone holds a comma, and the list is not the single empty string. *)
Theorem company_phones_round_trip
    (d : Database F) (company : CompanyCreate) (out : CompanyOut) :
  result_of (create_company company) d = Ok out ->
  cr_phones company <> [] ->
  (forall p, In p (cr_phones company) -> contains_char comma p = false) ->
  cr_phones company <> [EmptyString] ->
  out_phones out = cr_phones company
  /\ exists got,
       result_of (get_company (out_id out))
         (db_after (create_company company) d) = Ok got
       /\ out_id got = out_id out
       /\ out_phones got = cr_phones company.
Proof.
  intros Hcreate Hne Hcomma Hone.
  destruct (create_company_ok d company out Hcreate)
    as (row & -> & Hid & Hphones & Hcos & _).
  split.
  - simpl. rewrite Hphones. apply split_join; assumption.
  - unfold result_of at 1, run, get_company, bind. simpl.
    rewrite Hcos, find_app_missing.
    + simpl. rewrite Z.eqb_refl. simpl. eexists. split; [reflexivity | ].
      split; [reflexivity | ]. simpl. rewrite Hphones.
      pose proof (join_not_empty comma _ Hne Hone) as Hj.
      destruct (join comma (cr_phones company)) eqn:E; [contradiction | ].
      rewrite <- E. apply split_join; assumption.
    + apply find_none_all. intros x Hx. rewrite Hid.
      apply next_id_company_fresh. exact Hx.
Qed.

Lemma fold_left_filter {A} (p : A -> bool) (l acc : list A) :
  fold_left (fun kept x => if p x then kept ++ [x] else kept) l acc
  = acc ++ filter p l.
Proof.
  revert acc. induction l as [| x l IH]; intros acc; simpl.
  - rewrite app_nil_r. reflexivity.
  - rewrite IH. destruct (p x); [ | reflexivity].
    rewrite <- app_assoc. reflexivity.
Qed.


Lemma filter_both {A} (p q : A -> bool) (l : list A) :
  filter (fun x => p x && q x) l = filter q (filter p l).
Proof.
  induction l as [| x l IH]; simpl; [reflexivity | ].
  destruct (p x); simpl; [ | exact IH].
  destruct (q x); [f_equal | ]; exact IH.
Qed.

Lemma company_join_building_In (d : Database F) (c : Company) (b : Building F) :
  In (c, b) (company_join_building d) <->
  In c (companies d) /\ find_building d (co_building_id c) = Some b.
Proof.
  unfold company_join_building, find_building. rewrite in_flat_map. split.
  - intros (x & Hx & Hin).
    destruct (find _ (buildings d)) as [b' | ] eqn:E; [ | contradiction].
    destruct Hin as [[= -> ->] | []]. split; assumption.
  - intros [Hc Hb]. exists c. split; [exact Hc | ]. rewrite Hb.
    left. reflexivity.
Qed.


End CompanyProperties.

(** *** At sample inputs *)

Lemma company_phones_round_trip_witness :
  result_of (create_company firm) town_db = Ok firm_out
  /\ cr_phones firm <> []
  /\ (forall p, In p (cr_phones firm) -> contains_char comma p = false)
  /\ cr_phones firm <> [EmptyString]
  /\ out_phones firm_out = cr_phones firm
  /\ exists got,
       result_of (get_company (out_id firm_out))
         (db_after (create_company firm) town_db) = Ok got
       /\ out_id got = out_id firm_out
       /\ out_phones got = cr_phones firm.
Proof.
  assert (H1 : result_of (create_company firm) town_db = Ok firm_out)
    by reflexivity.
  assert (H2 : cr_phones firm <> []) by discriminate.
  assert (H3 : forall p, In p (cr_phones firm) -> contains_char comma p = false)
    by (intros p [<- | [<- | []]]; reflexivity).
  assert (H4 : cr_phones firm <> [EmptyString]) by discriminate.
  repeat (split; [assumption | ]).
  exact (company_phones_round_trip town_db firm firm_out H1 H2 H3 H4).
Defined.

(** C8 as stated fails on the one-element list holding the empty string:
    it is joined to the empty text, which [get_company] reads back as no
    phones at all. *)
Lemma blank_phone_is_lost :
  cr_phones blank <> []
  /\ (forall p, In p (cr_phones blank) -> contains_char comma p = false)
  /\ exists out got,
       result_of (create_company blank) town_db = Ok out
       /\ result_of (get_company (out_id out))
            (db_after (create_company blank) town_db) = Ok got
       /\ out_phones got = []
       /\ out_phones got <> cr_phones blank.
Proof.
  split; [discriminate | ]. split.
  - intros p [<- | []]. reflexivity.
  - eexists. eexists. split; [reflexivity | ]. split; [reflexivity | ].
    split; [reflexivity | discriminate].
Qed.


(** ** Haversine distance, over the real numbers *)

Section Haversine.

Local Open Scope R_scope.

Lemma haversine_real (lat1 lon1 lat2 lon2 : R) :
  calculate_distance_haversine lat1 lon1 lat2 lon2
  = 2 * asin
          (sqrt
             (sin ((lat2 * (PI / 180) - lat1 * (PI / 180)) / 2) ^ 2
              + cos (lat1 * (PI / 180)) * cos (lat2 * (PI / 180))
                * sin ((lon2 * (PI / 180) - lon1 * (PI / 180)) / 2) ^ 2))
    * 6371.
Proof. reflexivity. Qed.

Lemma sin_half_difference_sq (a b : R) :
  sin ((b - a) / 2) ^ 2 = sin ((a - b) / 2) ^ 2.
Proof.
  replace ((b - a) / 2) with (- ((a - b) / 2)) by lra.
  rewrite sin_neg. ring.
Qed.

(** C9: with floats read as real numbers, the distance does not depend on
    the order of its two points and is zero from a point to itself; it is
    the Haversine formula on the coordinates in radians, times 6371. *)
Theorem haversine_symmetric_and_zero :
  (forall lat1 lon1 lat2 lon2 : R,
     calculate_distance_haversine lat1 lon1 lat2 lon2
     = calculate_distance_haversine lat2 lon2 lat1 lon1)
  /\ (forall lat lon : R, calculate_distance_haversine lat lon lat lon = 0)
  /\ (forall lat1 lon1 lat2 lon2 : R,
        calculate_distance_haversine lat1 lon1 lat2 lon2
        = 2 * asin
                (sqrt
                   (sin ((math_radians lat2 - math_radians lat1) / 2) ^ 2
                    + cos (math_radians lat1) * cos (math_radians lat2)
                      * sin ((math_radians lon2 - math_radians lon1) / 2) ^ 2))
          * 6371)
  /\ (forall x : R, math_radians x = x * (PI / 180)).
Proof.
  split; [ | split; [ | split; reflexivity]].
  - intros lat1 lon1 lat2 lon2. rewrite !haversine_real.
    rewrite (sin_half_difference_sq (lat1 * (PI / 180)) (lat2 * (PI / 180))).
    rewrite (sin_half_difference_sq (lon1 * (PI / 180)) (lon2 * (PI / 180))).
    rewrite (Rmult_comm (cos (lat1 * (PI / 180)))). reflexivity.
  - intros lat lon. rewrite haversine_real.
    replace ((lat * (PI / 180) - lat * (PI / 180)) / 2) with 0 by lra.
    replace ((lon * (PI / 180) - lon * (PI / 180)) / 2) with 0 by lra.
    rewrite sin_0.
    replace (0 ^ 2 + cos (lat * (PI / 180)) * cos (lat * (PI / 180)) * 0 ^ 2)
      with 0 by ring.
    rewrite sqrt_0, asin_0. ring.
Qed.

End Haversine.

(** * Further properties of the handlers *)

(** ** More on strings *)

Lemma str_injective (a b : Z) : 0 < a -> 0 < b -> str a = str b -> a = b.
Proof.
  destruct a as [| p | p], b as [| q | q]; try lia. intros _ _ H.
  unfold str in H. simpl in H.
  assert (E : Some (Pos.to_uint p) = Some (Pos.to_uint q)).
  { rewrite <- (NilZero.usu (Pos.to_uint p)) by apply Unsigned.to_uint_nonnil.
    rewrite <- (NilZero.usu (Pos.to_uint q)) by apply Unsigned.to_uint_nonnil.
    rewrite H. reflexivity. }
  injection E as E. apply Unsigned.to_uint_inj in E. congruence.
Qed.

Lemma digits_no_slash (s : string) :
  string_forallb is_digit s = true -> contains_char slash s = false.
Proof.
  induction s as [| c s IH]; [reflexivity | ].
  cbn [string_forallb contains_char].
  rewrite andb_true_iff. intros [Hc Hs]. rewrite (IH Hs), orb_false_r.
  destruct (Ascii.eqb_spec slash c) as [<- | ]; [discriminate Hc | reflexivity].
Qed.

Lemma str_no_slash (n : Z) : 0 < n -> contains_char slash (str n) = false.
Proof. intros Hn. apply digits_no_slash, str_digits. exact Hn. Qed.

Lemma contains_char_app (c : ascii) (a b : string) :
  contains_char c (a ++ b) = contains_char c a || contains_char c b.
Proof.
  induction a as [| x a IH]; simpl; [reflexivity | ].
  rewrite IH, orb_assoc. reflexivity.
Qed.

Lemma slash_inside (a b : string) :
  contains_char slash (a ++ String slash b) = true.
Proof.
  rewrite contains_char_app. cbn [contains_char].
  rewrite Ascii.eqb_refl. apply orb_true_r.
Qed.

Lemma no_slash_inside (a b s : string) :
  contains_char slash s = false -> s <> (a ++ String slash b)%string.
Proof. intros Hs ->. rewrite slash_inside in Hs. discriminate Hs. Qed.

Lemma count_char_app (c : ascii) (a b : string) :
  count_char c (a ++ b) = (count_char c a + count_char c b)%nat.
Proof.
  induction a as [| x a IH]; simpl; [reflexivity | ]. rewrite IH. lia.
Qed.

Lemma count_char_absent (c : ascii) (s : string) :
  contains_char c s = false -> count_char c s = 0%nat.
Proof.
  induction s as [| x s IH]; simpl; [reflexivity | ].
  rewrite orb_false_iff. intros [-> Hs]. rewrite (IH Hs). reflexivity.
Qed.

Lemma length_append (a b : string) :
  String.length (a ++ b) = (String.length a + String.length b)%nat.
Proof. induction a as [| x a IH]; simpl; [reflexivity | now rewrite IH]. Qed.

Lemma append_assoc (a b c : string) :
  ((a ++ b) ++ c)%string = (a ++ (b ++ c))%string.
Proof. induction a as [| x a IH]; simpl; [reflexivity | now rewrite IH]. Qed.

(** Two readings of one text as "head, slash, tail": when one tail has no
    slash, it is the end of the other tail. *)
Lemma same_tail (a b r s : string) :
  contains_char slash s = false ->
  (a ++ String slash r)%string = (b ++ String slash s)%string ->
  (a = b /\ r = s)
  \/ exists r', r = (r' ++ String slash s)%string
                /\ b = (a ++ String slash r')%string.
Proof.
  intros Hs. revert b. induction a as [| x a IH]; intros b H.
  - destruct b as [| y b]; simpl in H.
    + injection H as ->. left. split; reflexivity.
    + injection H as <- ->. right. exists b. split; reflexivity.
  - destruct b as [| y b]; simpl in H.
    + injection H as -> H. exfalso.
      exact (no_slash_inside a r s Hs (eq_sym H)).
    + injection H as -> H. destruct (IH b H) as [[-> ->] | (r' & -> & ->)].
      * left. split; reflexivity.
      * right. exists r'. split; reflexivity.
Qed.

Section TreeProperties.

Context {F : Type}.

Lemma same_id_same_row (cats : list Category) (c c' : Category) :
  NoDup (map cat_id cats) -> In c cats -> In c' cats ->
  cat_id c = cat_id c' -> c = c'.
Proof.
  induction cats as [| r cats IH]; simpl; intros Hnd Hc Hc' Hid; [contradiction | ].
  apply NoDup_cons_iff in Hnd. destruct Hnd as [Hr Hnd].
  destruct Hc as [-> | Hc], Hc' as [-> | Hc'].
  - reflexivity.
  - exfalso. apply Hr. rewrite Hid. apply in_map. exact Hc'.
  - exfalso. apply Hr. rewrite <- Hid. apply in_map. exact Hc.
  - apply IH; assumption.
Qed.

Lemma find_by_id (cats : list Category) (c : Category) :
  NoDup (map cat_id cats) -> In c cats ->
  find (fun r => cat_id r =? cat_id c) cats = Some c.
Proof.
  intros Hnd Hc.
  destruct (find (fun r => cat_id r =? cat_id c) cats) as [r | ] eqn:E.
  - apply find_some in E. destruct E as [Hr Hid]. apply Z.eqb_eq in Hid.
    f_equal. apply (same_id_same_row cats); assumption.
  - apply find_none with (x := c) in E; [ | exact Hc].
    rewrite Z.eqb_refl in E. discriminate E.
Qed.

(** The two shapes of a row of a reachable database. *)
Lemma reachable_row_shape (d : Database F) (c : Category) :
  reachable d -> In c (categories d) ->
  0 < cat_id c
  /\ ((parent_of d c = None /\ cat_path c = Some (str (cat_id c)))
      \/ exists p ppath,
           parent_of d c = Some p /\ In p (categories d)
           /\ cat_path p = Some ppath
           /\ cat_path c = Some (ppath ++ String slash (str (cat_id c)))%string).
Proof.
  intros Hreach Hin.
  pose proof (reachable_path_invariant d c Hreach Hin) as Hinv.
  destruct (reachable_categories_ok d Hreach) as [_ Hall].
  destruct (Hall c Hin) as [Hpos _]. split; [exact Hpos | ].
  unfold path_invariant in Hinv.
  destruct (parent_of d c) as [p | ] eqn:Hp.
  - right. destruct Hinv as (pp & Hpp & Hc & _). exists p, pp.
    repeat split; try assumption.
    unfold parent_of in Hp. destruct (cat_parent_id c); [ | discriminate].
    unfold find_category in Hp. apply find_some in Hp. exact (proj1 Hp).
  - left. split; [reflexivity | exact (proj1 Hinv)].
Qed.

(** In a reachable database the path names the row. *)
Lemma path_names_row (d : Database F) (c c' : Category) :
  reachable d -> In c (categories d) -> In c' (categories d) ->
  cat_path c = cat_path c' -> c = c'.
Proof.
  intros Hreach Hc Hc' Hpath.
  destruct (reachable_categories_ok d Hreach) as [Hnd _].
  destruct (reachable_row_shape d c Hreach Hc) as [Hpos Hs].
  destruct (reachable_row_shape d c' Hreach Hc') as [Hpos' Hs'].
  pose proof (str_no_slash _ Hpos) as Hns.
  pose proof (str_no_slash _ Hpos') as Hns'.
  apply (same_id_same_row (categories d)); try assumption.
  apply str_injective; try assumption.
  destruct Hs as [[_ Hp] | (p & pp & _ & _ & _ & Hp)],
           Hs' as [[_ Hp'] | (p' & pp' & _ & _ & _ & Hp')];
    rewrite Hp, Hp' in Hpath; injection Hpath as Hpath.
  - exact Hpath.
  - exfalso. exact (no_slash_inside _ _ _ Hns Hpath).
  - exfalso. exact (no_slash_inside _ _ _ Hns' (eq_sym Hpath)).
  - destruct (same_tail _ _ _ _ Hns' Hpath) as [[_ E] | (r' & E & _)];
      [exact E | ].
    exfalso. exact (no_slash_inside _ _ _ Hns E).
Qed.

Lemma descends_path_under (d : Database F) (target c : Category) :
  reachable d -> In target (categories d) -> In c (categories d) ->
  descends d target c -> path_under target c.
Proof.
  intros Hreach Ht Hc Hdesc. induction Hdesc as [| c p Hp Hdesc IH].
  - destruct (reachable_row_shape d target Hreach Ht)
      as [_ [[_ Hpath] | (p & pp & _ & _ & _ & Hpath)]];
      eexists; eexists; eauto.
  - destruct (reachable_row_shape d c Hreach Hc)
      as [_ [[Hnone _] | (p' & pp & Hp' & Hin & Hpp & Hpath)]];
      [rewrite Hnone in Hp; discriminate Hp | ].
    rewrite Hp in Hp'. injection Hp' as <-.
    destruct (IH Hin) as (tp & q & Htp & Hq & Hcases).
    rewrite Hpp in Hq. injection Hq as <-.
    exists tp, (pp ++ String slash (str (cat_id c)))%string.
    split; [exact Htp | ]. split; [exact Hpath | ]. right.
    destruct Hcases as [-> | [rest ->]].
    + eexists. reflexivity.
    + exists (rest ++ String slash (str (cat_id c)))%string.
      rewrite append_assoc. reflexivity.
Qed.

Lemma path_under_descends_len (d : Database F) (target : Category) (n : nat) :
  reachable d -> In target (categories d) ->
  forall c p, In c (categories d) -> cat_path c = Some p ->
    (String.length p <= n)%nat ->
    path_under target c -> descends d target c.
Proof.
  intros Hreach Ht. induction n as [| n IH]; intros c p Hc Hp Hlen Hunder.
  - destruct (reachable_categories_ok d Hreach) as [_ Hall].
    destruct (Hall c Hc) as (_ & q & Hq & Hshape).
    rewrite Hp in Hq. injection Hq as <-.
    apply path_shape_not_empty in Hshape. destruct p; [contradiction | ].
    simpl in Hlen. lia.
  - destruct Hunder as (tp & q & Htp & Hq & Hcases).
    rewrite Hp in Hq. injection Hq as <-.
    destruct Hcases as [-> | [rest Hrest]].
    + assert (c = target) as ->
        by (apply (path_names_row d); try assumption; congruence).
      constructor.
    + destruct (reachable_row_shape d c Hreach Hc)
        as [Hpos [[_ Hroot] | (par & pp & Hpar & Hin & Hpp & Hpath)]].
      * exfalso. rewrite Hp in Hroot. injection Hroot as Hroot.
        pose proof (str_no_slash _ Hpos) as Hns.
        rewrite <- Hroot in Hns. exact (no_slash_inside _ _ _ Hns Hrest).
      * rewrite Hp in Hpath. injection Hpath as Hpath.
        rewrite Hrest in Hpath.
        apply (descends_child d target c par Hpar).
        destruct (same_tail _ _ _ _ (str_no_slash _ Hpos) Hpath)
          as [[<- _] | (r' & _ & Hpp')].
        -- assert (par = target) as ->
             by (apply (path_names_row d); try assumption; congruence).
           constructor.
        -- apply (IH par pp Hin Hpp).
           ++ rewrite Hrest, Hpath in Hlen.
              rewrite length_append in Hlen. simpl in Hlen. lia.
           ++ exists tp, pp. split; [exact Htp | ]. split; [exact Hpp | ].
              right. exists r'. exact Hpp'.
Qed.

Lemma path_under_iff_descends (d : Database F) (target c : Category) :
  reachable d -> In target (categories d) -> In c (categories d) ->
  path_under target c <-> descends d target c.
Proof.
  intros Hreach Ht Hc. split.
  - intros Hunder. pose proof Hunder as (tp & p & _ & Hp & _).
    apply (path_under_descends_len d target (String.length p) Hreach Ht c p);
      auto.
  - apply descends_path_under; assumption.
Qed.

End TreeProperties.

Section SubtreeProperties.

Context {F : Type}.

(** The ids [get_all_child_category_ids] returns, by paths. *)
Lemma subtree_ids_by_path
    (d : Database F) (category_id : Z) (target : Category) :
  reachable d ->
  find_category d category_id = Some target ->
  exists ids,
    result_of (get_all_child_category_ids category_id) d = Ok ids
    /\ forall i, In i ids <->
         exists c, In c (categories d) /\ cat_id c = i /\ path_under target c.
Proof.
  intros Hreach Hfind. apply reachable_categories_ok in Hreach.
  destruct Hreach as [Hnd Hall].
  unfold result_of. rewrite get_all_child_category_ids_run, Hfind.
  unfold find_category in Hfind. apply find_some in Hfind.
  destruct Hfind as [Hin Hid]. apply Z.eqb_eq in Hid.
  destruct (Hall target Hin) as (_ & tpath & Htp & Hshape).
  rewrite Htp, (truthy_str_shape tpath Hshape). simpl.
  eexists. split; [reflexivity | ]. intros i. split.
  - intros [<- | Hi].
    + exists target. split; [exact Hin | ]. split; [exact Hid | ].
      exists tpath, tpath. auto.
    + apply in_map_iff in Hi. destruct Hi as (c & Hc & Hcin).
      apply filter_In in Hcin. destruct Hcin as [Hcin _].
      apply filter_In in Hcin. destruct Hcin as [Hcin Hm].
      apply (path_matches_spec tpath c Hshape) in Hm.
      destruct Hm as (p & Hp & Hcases).
      exists c. split; [exact Hcin | ]. split; [exact Hc | ].
      exists tpath, p. auto.
  - intros (c & Hcin & Hc & tp & p & Htp' & Hp & Hcases).
    rewrite Htp in Htp'. injection Htp' as <-.
    destruct (Z.eqb_spec i category_id) as [-> | Hne]; [left; reflexivity | ].
    right. apply in_map_iff. exists c. split; [exact Hc | ].
    apply filter_In. split.
    + apply filter_In. split; [exact Hcin | ].
      apply (path_matches_spec tpath c Hshape). eauto.
    + rewrite Hc. apply negb_true_iff, Z.eqb_neq. exact Hne.
Qed.

(** X1: in a reachable database, resolving the subtree of an existing
    category gives exactly the ids of the category and of the rows below it
    along the parent links. *)
Theorem subtree_ids_are_descendants
    (d : Database F) (category_id : Z) (target : Category) :
  reachable d ->
  find_category d category_id = Some target ->
  exists ids,
    result_of (get_all_child_category_ids category_id) d = Ok ids
    /\ forall i, In i ids <->
         exists c, In c (categories d) /\ cat_id c = i /\ descends d target c.
Proof.
  intros Hreach Hfind.
  destruct (subtree_ids_by_path d category_id target Hreach Hfind)
    as (ids & Hres & Hspec).
  assert (Ht : In target (categories d)).
  { unfold find_category in Hfind. apply find_some in Hfind. tauto. }
  exists ids. split; [exact Hres | ]. intros i. rewrite Hspec.
  split; intros (c & Hc & Hid & H); exists c; repeat split; try assumption;
    apply (path_under_iff_descends d target c Hreach Ht Hc); exact H.
Qed.

Lemma path_under_trans (a b c : Category) :
  path_under a b -> path_under b c -> path_under a c.
Proof.
  intros (pa & pb & Ha & Hb & Hab) (pb' & pc & Hb' & Hc & Hbc).
  rewrite Hb in Hb'. injection Hb' as <-.
  exists pa, pc. split; [exact Ha | ]. split; [exact Hc | ].
  destruct Hab as [-> | [r ->]]; [exact Hbc | ].
  right. destruct Hbc as [-> | [r' ->]].
  - exists r. reflexivity.
  - exists (r ++ String slash r')%string. rewrite append_assoc. reflexivity.
Qed.

(** X2: in a reachable database, the subtree of any id found in a subtree
    lies within that subtree. *)
Theorem subtree_of_member_is_inside
    (d : Database F) (i j : Z) (ids ids' : list Z) :
  reachable d ->
  result_of (get_all_child_category_ids i) d = Ok ids ->
  In j ids ->
  result_of (get_all_child_category_ids j) d = Ok ids' ->
  incl ids' ids.
Proof.
  intros Hreach Hi Hj Hj'.
  destruct (find_category d i) as [target | ] eqn:Hfind.
  - destruct (subtree_ids_by_path d i target Hreach Hfind)
      as (ids0 & Hres & Hspec).
    rewrite Hi in Hres. injection Hres as <-.
    apply Hspec in Hj. destruct Hj as (cj & Hcj & Hidj & Hunder).
    destruct (reachable_categories_ok d Hreach) as [Hnd _].
    assert (Hfj : find_category d j = Some cj).
    { unfold find_category. rewrite <- Hidj. apply find_by_id; assumption. }
    destruct (subtree_ids_by_path d j cj Hreach Hfj) as (ids1 & Hres1 & Hspec1).
    rewrite Hj' in Hres1. injection Hres1 as <-.
    intros k Hk. apply Hspec1 in Hk. destruct Hk as (ck & Hck & Hidk & Hunder').
    apply Hspec. exists ck. split; [exact Hck | ]. split; [exact Hidk | ].
    exact (path_under_trans _ _ _ Hunder Hunder').
  - unfold result_of in Hi. rewrite get_all_child_category_ids_run, Hfind in Hi.
    simpl in Hi. injection Hi as <-. destruct Hj as [<- | []].
    unfold result_of in Hj'.
    rewrite get_all_child_category_ids_run, Hfind in Hj'.
    simpl in Hj'. injection Hj' as <-. apply incl_refl.
Qed.

(** X3: in a reachable database, the level of every category is the
    number of slashes in its path. *)
Theorem category_level_counts_slashes (d : Database F) (c : Category) :
  reachable d -> In c (categories d) ->
  exists p, cat_path c = Some p
            /\ cat_level c = Z.of_nat (count_char slash p).
Proof.
  intros Hreach. revert c.
  induction Hreach as [| d category Hd IH | d d' _ _ Hd' | d d' _ IH Hd'].
  - intros c [].
  - unfold db_after.
    pose proof (create_category_outcome d category) as H. cbv zeta in H.
    pose proof (next_id_positive (map cat_id (categories d))) as Hpos.
    pose proof (count_char_absent slash _ (str_no_slash _ Hpos)) as Hzero.
    destruct (truthy_int (cc_parent_id category)) as [pid | ].
    + destruct (find_category d pid) as [parent | ] eqn:Hfind; rewrite H; simpl;
        [ | exact IH].
      intros c Hc. apply in_app_or in Hc. destruct Hc as [Hc | [<- | []]];
        [exact (IH c Hc) | ].
      unfold find_category in Hfind. apply find_some in Hfind.
      destruct Hfind as [Hin _].
      destruct (IH parent Hin) as (pp & Hpp & Hlevel).
      destruct (reachable_categories_ok d Hd) as [_ Hall].
      destruct (Hall parent Hin) as (_ & pp' & Hpp' & Hshape).
      rewrite Hpp in Hpp'. injection Hpp' as <-.
      rewrite Hpp, (truthy_str_shape pp Hshape). simpl.
      eexists. split; [reflexivity | ].
      rewrite count_char_app. cbn [count_char]. rewrite Ascii.eqb_refl.
      unfold inserted_row in Hzero |- *. simpl. rewrite Hzero, Hlevel. lia.
    + rewrite H. simpl.
      intros c Hc. apply in_app_or in Hc. destruct Hc as [Hc | [<- | []]];
        [exact (IH c Hc) | ].
      simpl. eexists. split; [reflexivity | ].
      unfold inserted_row. simpl. rewrite Hzero. reflexivity.
  - rewrite Hd'. intros c Hc.
    assert (H : forallb
                  (fun r => match cat_path r with
                            | Some p =>
                                cat_level r =? Z.of_nat (count_char slash p)
                            | None => false
                            end) test_data_categories = true)
      by (vm_compute; reflexivity).
    rewrite forallb_forall in H. specialize (H c Hc).
    destruct (cat_path c) as [p | ]; [ | discriminate].
    exists p. split; [reflexivity | apply Z.eqb_eq; exact H].
  - rewrite Hd'. exact IH.
Qed.

(** X4: in a reachable database the ids of the categories are distinct and
    positive, every category has a path of digits and slashes that is not
    empty, no two categories share a path, and every parent id is 0 or the
    id of a category of the table. *)
Theorem category_table_is_well_formed (d : Database F) :
  reachable d ->
  NoDup (map cat_id (categories d))
  /\ (forall c, In c (categories d) ->
        0 < cat_id c
        /\ (exists p, cat_path c = Some p /\ path_shape p = true)
        /\ (forall pid, cat_parent_id c = Some pid ->
              pid = 0 \/ exists p, find_category d pid = Some p))
  /\ (forall c c', In c (categories d) -> In c' (categories d) ->
        cat_path c = cat_path c' -> c = c').
Proof.
  intros Hreach. destruct (reachable_categories_ok d Hreach) as [Hnd Hall].
  split; [exact Hnd | ]. split.
  - intros c Hc. destruct (Hall c Hc) as [Hpos Hpath].
    split; [exact Hpos | ]. split; [exact Hpath | ].
    intros pid Hpid.
    pose proof (reachable_rows_ok d Hreach c Hc) as Hrow.
    unfold row_ok in Hrow. rewrite Hpid in Hrow. unfold find_category.
    destruct (find _ (categories d)) as [p | ]; [right; eauto | left].
    apply andb_true_iff in Hrow. apply Z.eqb_eq. exact (proj1 Hrow).
  - intros c c'. apply path_names_row. exact Hreach.
Qed.

(** X5: in a reachable database every category, not only the one just
    created, satisfies the materialized-path invariant. *)
Theorem every_category_keeps_the_invariant (d : Database F) (c : Category) :
  reachable d -> In c (categories d) -> path_invariant d c.
Proof.
  intros Hreach Hin. apply row_ok_sound.
  apply reachable_rows_ok; assumption.
Qed.

(** X6: a successful [create_category] gives the new row an id that is
    positive and not in use, keeps the name and parent id of the request,
    appends the row to the table and changes no other row, building or
    company. *)
Theorem create_category_appends
    (d : Database F) (category : CategoryCreate) (c : Category) :
  result_of (create_category category) d = Ok c ->
  0 < cat_id c
  /\ (forall r, In r (categories d) -> cat_id r <> cat_id c)
  /\ cat_name c = cc_name category
  /\ cat_parent_id c = cc_parent_id category
  /\ categories (db_after (create_category category) d) = categories d ++ [c]
  /\ buildings (db_after (create_category category) d) = buildings d
  /\ companies (db_after (create_category category) d) = companies d.
Proof.
  unfold result_of, db_after.
  pose proof (create_category_outcome d category) as H. cbv zeta in H.
  pose proof (next_id_positive (map cat_id (categories d))) as Hpos.
  assert (Hfresh : forall r, In r (categories d) ->
            cat_id r <> next_id (map cat_id (categories d))).
  { intros r Hr. apply Z.eqb_neq. apply next_id_fresh. exact Hr. }
  destruct (truthy_int (cc_parent_id category)) as [pid | ].
  - destruct (find_category d pid) as [parent | ]; rewrite H; simpl;
      [ | discriminate].
    intros [= <-]. simpl. repeat split; assumption.
  - rewrite H. simpl. intros [= <-]. simpl. repeat split; assumption.
Qed.

End SubtreeProperties.

Lemma subtree_ids_are_descendants_witness :
  reachable meat_db
  /\ find_category meat_db 1 = Some (mkCategory 1 "Food" None 0 (Some "1"%string))
  /\ exists ids,
       result_of (get_all_child_category_ids 1) meat_db = Ok ids
       /\ forall i, In i ids <->
            exists c, In c (categories meat_db) /\ cat_id c = i
              /\ descends meat_db (mkCategory 1 "Food" None 0 (Some "1"%string)) c.
Proof.
  assert (Hreach : reachable meat_db)
    by (apply reach_create_category, reach_create_category, reach_empty).
  split; [exact Hreach | ]. split; [reflexivity | ].
  apply (subtree_ids_are_descendants meat_db 1); [exact Hreach | reflexivity].
Defined.

Lemma subtree_of_member_is_inside_witness :
  reachable meat_db
  /\ result_of (get_all_child_category_ids 1) meat_db = Ok [1; 2]
  /\ In 2 [1; 2]
  /\ result_of (get_all_child_category_ids 2) meat_db = Ok [2]
  /\ incl [2] [1; 2].
Proof.
  assert (Hreach : reachable meat_db)
    by (apply reach_create_category, reach_create_category, reach_empty).
  assert (H1 : result_of (get_all_child_category_ids 1) meat_db = Ok [1; 2])
    by reflexivity.
  assert (H2 : In 2 [1; 2]) by (right; left; reflexivity).
  assert (H3 : result_of (get_all_child_category_ids 2) meat_db = Ok [2])
    by reflexivity.
  repeat (split; [assumption | ]).
  exact (subtree_of_member_is_inside meat_db 1 2 [1; 2] [2] Hreach H1 H2 H3).
Defined.

Lemma category_level_counts_slashes_witness :
  reachable meat_db
  /\ In meat_row (categories meat_db)
  /\ exists p, cat_path meat_row = Some p
               /\ cat_level meat_row = Z.of_nat (count_char slash p).
Proof.
  assert (Hreach : reachable meat_db)
    by (apply reach_create_category, reach_create_category, reach_empty).
  assert (Hin : In meat_row (categories meat_db)) by (right; left; reflexivity).
  split; [exact Hreach | ]. split; [exact Hin | ].
  exact (category_level_counts_slashes meat_db meat_row Hreach Hin).
Defined.

Lemma category_table_is_well_formed_witness :
  reachable meat_db
  /\ NoDup (map cat_id (categories meat_db))
  /\ (forall c, In c (categories meat_db) ->
        0 < cat_id c
        /\ (exists p, cat_path c = Some p /\ path_shape p = true)
        /\ (forall pid, cat_parent_id c = Some pid ->
              pid = 0 \/ exists p, find_category meat_db pid = Some p))
  /\ (forall c c', In c (categories meat_db) -> In c' (categories meat_db) ->
        cat_path c = cat_path c' -> c = c').
Proof.
  assert (Hreach : reachable meat_db)
    by (apply reach_create_category, reach_create_category, reach_empty).
  split; [exact Hreach | ].
  exact (category_table_is_well_formed meat_db Hreach).
Defined.

Lemma every_category_keeps_the_invariant_witness :
  reachable meat_db
  /\ In meat_row (categories meat_db)
  /\ path_invariant meat_db meat_row.
Proof.
  assert (Hreach : reachable meat_db)
    by (apply reach_create_category, reach_create_category, reach_empty).
  assert (Hin : In meat_row (categories meat_db)) by (right; left; reflexivity).
  split; [exact Hreach | ]. split; [exact Hin | ].
  exact (every_category_keeps_the_invariant meat_db meat_row Hreach Hin).
Defined.

Lemma create_category_appends_witness :
  result_of (create_category meat) food_db = Ok meat_row
  /\ 0 < cat_id meat_row
  /\ (forall r, In r (categories food_db) -> cat_id r <> cat_id meat_row)
  /\ cat_name meat_row = cc_name meat
  /\ cat_parent_id meat_row = cc_parent_id meat
  /\ categories (db_after (create_category meat) food_db)
     = categories food_db ++ [meat_row]
  /\ buildings (db_after (create_category meat) food_db) = buildings food_db
  /\ companies (db_after (create_category meat) food_db) = companies food_db.
Proof.
  assert (H : result_of (create_category meat) food_db = Ok meat_row)
    by reflexivity.
  split; [exact H | ].
  exact (create_category_appends food_db meat meat_row H).
Defined.

Lemma create_category_unknown_parent_witness :
  cc_parent_id (mkCategoryCreate "Fish" (Some 9)) = Some 9
  /\ fits_int64 9 = true
  /\ 9 <> 0
  /\ find_category food_db 9 = None
  /\ run (create_category (mkCategoryCreate "Fish" (Some 9))) food_db
     = (Raise (mkHTTPException 404 ParentCategoryNotFound),
        mkSession food_db [Select TCategories]).
Proof.
  assert (H1 : cc_parent_id (mkCategoryCreate "Fish" (Some 9)) = Some 9)
    by reflexivity.
  assert (Hfit : fits_int64 9 = true) by reflexivity.
  assert (H2 : 9 <> 0) by discriminate.
  assert (H3 : find_category food_db 9 = None) by reflexivity.
  repeat (split; [assumption | ]).
  exact (create_category_unknown_parent food_db _ 9 H1 Hfit H2 H3).
Defined.

(** ** Buildings and companies *)

(** ** Pages *)

Lemma firstn_sum {A} (a b : nat) (l : list A) :
  firstn (a + b) l = firstn a l ++ firstn b (skipn a l).
Proof.
  revert l. induction a as [| a IH]; intros l; [reflexivity | ].
  destruct l as [| x l]; simpl.
  - rewrite firstn_nil. reflexivity.
  - rewrite IH. reflexivity.
Qed.

Lemma page_sum {A} (skip l1 l2 : Z) (rows : list A) :
  0 <= skip -> 0 <= l1 -> 0 <= l2 ->
  page skip (l1 + l2) rows = page skip l1 rows ++ page (skip + l1) l2 rows.
Proof.
  intros Hs H1 H2. unfold page.
  destruct (Z.ltb_spec (l1 + l2) 0); [lia | ].
  destruct (Z.ltb_spec l1 0); [lia | ].
  destruct (Z.ltb_spec l2 0); [lia | ].
  rewrite !Z2Nat.inj_add by lia. rewrite firstn_sum, skipn_skipn.
  rewrite (Nat.add_comm (Z.to_nat l1)). reflexivity.
Qed.

Lemma page_length {A} (skip limit : Z) (rows : list A) :
  0 <= limit -> Z.of_nat (List.length (page skip limit rows)) <= limit.
Proof.
  intros Hl. unfold page. destruct (Z.ltb_spec limit 0); [lia | ].
  rewrite length_firstn. lia.
Qed.

Lemma page_all {A} (limit : Z) (rows : list A) :
  Z.of_nat (List.length rows) <= limit -> page 0 limit rows = rows.
Proof.
  intros Hl. unfold page. simpl.
  destruct (Z.ltb_spec limit 0); [lia | ].
  apply firstn_all2. lia.
Qed.

Lemma in_firstn {A} (n : nat) (l : list A) (x : A) :
  In x (firstn n l) -> In x l.
Proof.
  revert l. induction n as [| n IH]; intros [| y l]; simpl; try tauto.
  intros [-> | H]; [now left | right; apply IH; exact H].
Qed.

Lemma in_skipn {A} (n : nat) (l : list A) (x : A) :
  In x (skipn n l) -> In x l.
Proof.
  revert l. induction n as [| n IH]; intros [| y l]; simpl; try tauto.
  intros H. right. apply IH. exact H.
Qed.

Lemma page_incl {A} (skip limit : Z) (rows : list A) :
  incl (page skip limit rows) rows.
Proof.
  unfold page. intros x Hx. destruct (limit <? 0).
  - apply in_skipn in Hx. exact Hx.
  - apply in_firstn, in_skipn in Hx. exact Hx.
Qed.

Section BuildingHandlers.

Context {F : Type}.


Lemma next_id_building_fresh (bs : list (Building F)) (b : Building F) :
  In b bs -> (bld_id b =? next_id (map bld_id bs)) = false.
Proof.
  intros H. apply Z.eqb_neq.
  pose proof (next_id_above (map bld_id bs) (bld_id b) (in_map bld_id _ _ H)).
  lia.
Qed.

Lemma create_building_run (d : Database F) (building : BuildingCreate) :
  let row :=
    mkBuilding (next_id (map bld_id (buildings d))) (bc_address building)
      (bc_latitude building) (bc_longitude building) in
  run (create_building building) d
  = (Ok row,
     mkSession (set_buildings (buildings d ++ [row]) d)
       [Commit (set_buildings (buildings d ++ [row]) d)]).
Proof. reflexivity. Qed.

Lemma get_building_run (d : Database F) (building_id : Z) :
  run (get_building building_id) d
  = (match find_building d building_id with
     | Some b => Ok b
     | None => Raise (mkHTTPException 404 BuildingNotFound)
     end,
     mkSession d [Select TBuildings]).
Proof.
  unfold run, get_building, bind, find_building. simpl.
  destruct (find _ (buildings d)); reflexivity.
Qed.

(** X9: a building comes back as it was created: [get_building] on the id
    [create_building] returned gives the row with the address and the
    coordinates of the request; the id is positive and was not in use, the
    buildings that were there are found as before, and companies and
    categories are not touched. *)
Theorem create_building_then_get (d : Database F) (building : BuildingCreate) :
  exists row,
    result_of (create_building building) d = Ok row
    /\ bld_address row = bc_address building
    /\ bld_latitude row = bc_latitude building
    /\ bld_longitude row = bc_longitude building
    /\ 0 < bld_id row
    /\ find_building d (bld_id row) = None
    /\ result_of (get_building (bld_id row))
         (db_after (create_building building) d) = Ok row
    /\ (forall j b, find_building d j = Some b ->
          result_of (get_building j) (db_after (create_building building) d)
          = Ok b)
    /\ companies (db_after (create_building building) d) = companies d
    /\ categories (db_after (create_building building) d) = categories d.
Proof.
  unfold result_of, db_after. rewrite create_building_run. cbv zeta.
  eexists. split; [reflexivity | ]. simpl.
  assert (Hnone : find_building d (next_id (map bld_id (buildings d))) = None).
  { apply find_none_all. intros x Hx. apply next_id_building_fresh. exact Hx. }
  repeat split.
  - apply next_id_positive.
  - exact Hnone.
  - rewrite get_building_run. unfold find_building in *. simpl.
    rewrite (find_app_missing _ _ _ Hnone). simpl. rewrite Z.eqb_refl.
    reflexivity.
  - intros j b Hj. rewrite get_building_run. unfold find_building in *. simpl.
    rewrite (find_app_found _ _ _ _ Hj). reflexivity.
Qed.

Lemma filter_all {A} (p : A -> bool) (l : list A) :
  (forall x, In x l -> p x = true) -> filter p l = l.
Proof.
  induction l as [| x l IH]; intros H; simpl; [reflexivity | ].
  rewrite (H x (or_introl eq_refl)). f_equal. apply IH.
  intros y Hy. apply H. now right.
Qed.

Lemma filter_drops_last {A} (p : A -> bool) (l : list A) (x : A) :
  (forall y, In y l -> p y = true) -> p x = false -> filter p (l ++ [x]) = l.
Proof.
  intros Hl Hx. rewrite filter_app, (filter_all p l Hl). simpl. rewrite Hx.
  apply app_nil_r.
Qed.

Lemma database_eta (d : Database F) :
  mkDatabase (buildings d) (categories d) (companies d) = d.
Proof. destruct d. reflexivity. Qed.

(** X10: when every company's building is in the table, creating a
    building and deleting it again gives back the database as it was. *)
Theorem create_building_then_delete (d : Database F) (building : BuildingCreate) :
  companies_housed d ->
  exists row,
    result_of (create_building building) d = Ok row
    /\ result_of (delete_building (bld_id row))
         (db_after (create_building building) d) = Ok building_deleted
    /\ db_after (delete_building (bld_id row))
         (db_after (create_building building) d) = d.
Proof.
  intros Hhoused. unfold result_of, db_after. rewrite create_building_run.
  cbv zeta. eexists. split; [reflexivity | ]. simpl.
  set (i := next_id (map bld_id (buildings d))).
  assert (Hnone : find_building d i = None).
  { apply find_none_all. intros x Hx. apply next_id_building_fresh. exact Hx. }
  assert (Hcos : forall c, In c (companies d) -> (co_building_id c =? i) = false).
  { intros c Hc. apply Z.eqb_neq. intros E. apply (Hhoused c Hc).
    rewrite E. exact Hnone. }
  rewrite delete_building_run. unfold find_building in *. simpl.
  rewrite (find_app_missing _ _ _ Hnone). simpl. rewrite Z.eqb_refl.
  assert (Hcount : companies_count
                     (set_buildings
                        (buildings d ++
                         [mkBuilding i (bc_address building)
                            (bc_latitude building) (bc_longitude building)]) d)
                     i = 0).
  { unfold companies_count. simpl.
    replace (filter (fun c => co_building_id c =? i) (companies d)) with
      (@nil Company); [reflexivity | ].
    symmetry. induction (companies d) as [| c cs IH]; [reflexivity | ].
    simpl. rewrite (Hcos c (or_introl eq_refl)). apply IH.
    intros c' Hc'. apply Hcos. now right. }
  rewrite Hcount. simpl. split; [reflexivity | ].
  rewrite filter_drops_last.
  - rewrite filter_all; [apply database_eta | ].
    intros c Hc. rewrite (Hcos c Hc). reflexivity.
  - intros b Hb. unfold i. rewrite (next_id_building_fresh _ _ Hb). reflexivity.
  - simpl. rewrite Z.eqb_refl. reflexivity.
Qed.

(** X11: a building deleted is gone: whenever [delete_building] succeeds,
    deleting the same id again, or getting it, answers 404. *)
Theorem delete_building_twice (d : Database F) (building_id : Z) :
  result_of (delete_building building_id) d = Ok building_deleted ->
  result_of (delete_building building_id)
    (db_after (delete_building building_id) d)
  = Raise (mkHTTPException 404 BuildingNotFound)
  /\ result_of (get_building building_id)
       (db_after (delete_building building_id) d)
     = Raise (mkHTTPException 404 BuildingNotFound).
Proof.
  unfold result_of, db_after. rewrite delete_building_run.
  destruct (find_building d building_id) as [b | ] eqn:Hfind; [ | discriminate].
  destruct (companies_count d building_id >? 0); [discriminate | ].
  intros _. simpl.
  assert (Hid : bld_id b = building_id).
  { unfold find_building in Hfind. apply find_some in Hfind.
    apply Z.eqb_eq. exact (proj2 Hfind). }
  rewrite delete_building_run, get_building_run. unfold find_building. simpl.
  rewrite Hid, find_filter_same. split; reflexivity.
Qed.

End BuildingHandlers.

Lemma mem_In (x : Z) (l : list Z) : mem x l = true <-> In x l.
Proof.
  unfold mem. rewrite existsb_exists. split.
  - intros (y & Hy & E). apply Z.eqb_eq in E. subst. exact Hy.
  - intros H. exists x. split; [exact H | apply Z.eqb_refl].
Qed.

(** The length test of [create_company]: the rows selected by id are as
    many as the ids asked for exactly when the ids are distinct and each
    names a row. *)
Lemma selected_as_many_as_asked (cats : list Category) (ids : list Z) :
  NoDup (map cat_id cats) ->
  Nat.eqb (List.length (filter (fun c => mem (cat_id c) ids) cats))
    (List.length ids) = true
  <-> NoDup ids /\ forall k, In k ids -> exists c, In c cats /\ cat_id c = k.
Proof.
  intros Hnd.
  set (sel := filter (fun c => mem (cat_id c) ids) cats).
  assert (HndL : NoDup (map cat_id sel))
    by (apply selected_ids_distinct; exact Hnd).
  assert (Hincl : incl (map cat_id sel) ids).
  { intros k Hk. apply in_map_iff in Hk. destruct Hk as (c & <- & Hc).
    apply filter_In in Hc. apply mem_In. exact (proj2 Hc). }
  rewrite Nat.eqb_eq, <- (length_map cat_id sel). split.
  - intros Hlen. split.
    + exact (@NoDup_incl_NoDup Z (map cat_id sel) ids HndL
               ltac:(lia) Hincl).
    + intros k Hk.
      assert (Hin : In k (map cat_id sel))
        by exact (@NoDup_length_incl Z (map cat_id sel) ids HndL
                    ltac:(lia) Hincl k Hk).
      apply in_map_iff in Hin. destruct Hin as (c & <- & Hc).
      apply filter_In in Hc. exists c. tauto.
  - intros [Hids Hall].
    assert (Hincl' : incl ids (map cat_id sel)).
    { intros k Hk. destruct (Hall k Hk) as (c & Hc & <-).
      apply in_map. apply filter_In. split; [exact Hc | ].
      apply mem_In. exact Hk. }
    pose proof (NoDup_incl_length Hids Hincl').
    pose proof (NoDup_incl_length HndL Hincl). lia.
Qed.

Lemma find_remove_same {A} (key : A -> Z) (l : list A) (i : Z) :
  find (fun x => key x =? i) (filter (fun x => negb (key x =? i)) l) = None.
Proof.
  induction l as [| x l IH]; simpl; [reflexivity | ].
  destruct (Z.eqb_spec (key x) i) as [Hx | Hx]; simpl; [exact IH | ].
  destruct (Z.eqb_spec (key x) i); [contradiction | exact IH].
Qed.

Lemma find_remove_other {A} (key : A -> Z) (l : list A) (i j : Z) :
  j <> i ->
  find (fun x => key x =? j) (filter (fun x => negb (key x =? i)) l)
  = find (fun x => key x =? j) l.
Proof.
  intros Hne. induction l as [| x l IH]; simpl; [reflexivity | ].
  destruct (Z.eqb_spec (key x) i) as [Hx | Hx]; simpl.
  - destruct (Z.eqb_spec (key x) j); [lia | exact IH].
  - rewrite IH. reflexivity.
Qed.

Section CompanyHandlers.

Context {F : Type}.

Lemma create_company_run (d : Database F) (company : CompanyCreate) :
  run (create_company company) d
  = match find_building d (cr_building_id company) with
    | None =>
        (Raise (mkHTTPException 404 BuildingNotFound),
         mkSession d [Select TBuildings])
    | Some _ =>
        let cats :=
          filter (fun c => mem (cat_id c) (cr_category_ids company))
            (categories d) in
        if Nat.eqb (List.length cats) (List.length (cr_category_ids company))
        then
          let row :=
            mkCompany (next_id (map co_id (companies d))) (cr_name company)
              (join comma (cr_phones company)) (cr_description company)
              (cr_website company) (cr_email company)
              (cr_building_id company)
              (if cr_is_active company then 1 else 0) (map cat_id cats) in
          (Ok (convert_unguarded row),
           mkSession (set_companies (companies d ++ [row]) d)
             [Select TBuildings; Select TCategories;
              Commit (set_companies (companies d ++ [row]) d)])
        else
          (Raise (mkHTTPException 404
                    (CategoriesNotFound
                       (set_difference (cr_category_ids company)
                          (map cat_id cats)))),
           mkSession d [Select TBuildings; Select TCategories])
    end.
Proof.
  unfold run, create_company, bind, find_building. simpl.
  destruct (find _ (buildings d)); [ | reflexivity]. simpl.
  destruct (Nat.eqb _ _); reflexivity.
Qed.

Lemma get_company_run (d : Database F) (company_id : Z) :
  run (get_company company_id) d
  = (match find (fun c => co_id c =? company_id) (companies d) with
     | Some c => Ok (convert c)
     | None => Raise (mkHTTPException 404 CompanyNotFound)
     end,
     mkSession d [Select TCompanies]).
Proof.
  unfold run, get_company, bind. simpl.
  destruct (find _ (companies d)); reflexivity.
Qed.

Lemma find_category_exists (d : Database F) (k : Z) :
  (exists c, find_category d k = Some c)
  <-> exists c, In c (categories d) /\ cat_id c = k.
Proof.
  unfold find_category. split.
  - intros (c & Hc). apply find_some in Hc. destruct Hc as [Hin Hid].
    apply Z.eqb_eq in Hid. eauto.
  - intros (c & Hin & Hid).
    destruct (find (fun r => cat_id r =? k) (categories d)) as [r | ] eqn:E;
      [eauto | ].
    apply find_none with (x := c) in E; [ | exact Hin].
    rewrite Hid, Z.eqb_refl in E. discriminate E.
Qed.

(** X12: in a reachable database, for a request whose building id and
    category ids are keys of the store, [create_company] succeeds exactly
    when the building exists, the category ids of the request are pairwise
    distinct, and each names a category; otherwise it answers 404 and
    neither writes nor commits.  A request that repeats an id of an
    existing category is among the rejected ones. *)
Theorem create_company_accepts (d : Database F) (company : CompanyCreate) :
  reachable d ->
  fits_int64 (cr_building_id company) = true ->
  (forall k, In k (cr_category_ids company) -> fits_int64 k = true) ->
  ((exists out, result_of (create_company company) d = Ok out)
   <-> (exists b, find_building d (cr_building_id company) = Some b)
       /\ NoDup (cr_category_ids company)
       /\ forall k, In k (cr_category_ids company) ->
            exists c, find_category d k = Some c)
  /\ (forall e, result_of (create_company company) d = Raise e ->
        status_code e = 404
        /\ db_after (create_company company) d = d
        /\ durable_states (snd (run (create_company company) d)) = []).
Proof.
  intros Hreach _ _. destruct (reachable_categories_ok d Hreach) as [Hnd _].
  pose proof (selected_as_many_as_asked (categories d)
                (cr_category_ids company) Hnd) as Hcount.
  unfold result_of, db_after. rewrite create_company_run.
  destruct (find_building d (cr_building_id company)) as [b | ].
  - cbv zeta.
    destruct (Nat.eqb _ _) eqn:E; simpl.
    + split.
      * split; [intros _ | intros _; eauto].
        destruct (proj1 Hcount eq_refl) as [Hids Hall].
        split; [eauto | ]. split; [exact Hids | ].
        intros k Hk. apply find_category_exists. exact (Hall k Hk).
      * intros e [=].
    + split.
      * split; [intros [out [=]] | ].
        intros (_ & Hids & Hall). exfalso.
        assert (false = true); [ | discriminate].
        apply Hcount. split; [exact Hids | ].
        intros k Hk. apply find_category_exists. exact (Hall k Hk).
      * intros e [= <-]. repeat split.
  - simpl. split.
    + split; [intros [out [=]] | intros ([b [=]] & _)].
    + intros e [= <-]. repeat split.
Qed.

(** X13: in a reachable database, what [get_company] returns for a company
    just created carries the name, description, website, e-mail, building
    id and active flag of the request, and as categories exactly the ids
    asked for; the company's id is positive and was not in use. *)
Theorem create_company_then_get (d : Database F) (company : CompanyCreate)
    (out : CompanyOut) :
  reachable d ->
  result_of (create_company company) d = Ok out ->
  0 < out_id out
  /\ (forall c, In c (companies d) -> co_id c <> out_id out)
  /\ exists got,
       result_of (get_company (out_id out))
         (db_after (create_company company) d) = Ok got
       /\ out_id got = out_id out
       /\ out_name got = cr_name company
       /\ out_description got = cr_description company
       /\ out_website got = cr_website company
       /\ out_email got = cr_email company
       /\ out_building_id got = cr_building_id company
       /\ out_is_active got = cr_is_active company
       /\ forall k, In k (out_categories got) <-> In k (cr_category_ids company).
Proof.
  intros Hreach. destruct (reachable_categories_ok d Hreach) as [Hnd _].
  pose proof (selected_as_many_as_asked (categories d)
                (cr_category_ids company) Hnd) as Hcount.
  unfold result_of, db_after. rewrite create_company_run.
  destruct (find_building d (cr_building_id company)) as [b | ];
    [ | discriminate].
  cbv zeta. destruct (Nat.eqb _ _) eqn:E; [ | discriminate].
  intros [= <-]. simpl.
  assert (Hfresh : forall c, In c (companies d) ->
            (co_id c =? next_id (map co_id (companies d))) = false).
  { intros c Hc. apply Z.eqb_neq.
    pose proof (next_id_above (map co_id (companies d)) (co_id c)
                  (in_map co_id _ _ Hc)). lia. }
  split; [apply next_id_positive | ]. split.
  - intros c Hc. apply Z.eqb_neq. apply Hfresh. exact Hc.
  - rewrite get_company_run. simpl.
    rewrite find_app_missing by (apply find_none_all; exact Hfresh).
    simpl. rewrite Z.eqb_refl. eexists. split; [reflexivity | ]. simpl.
    repeat split.
    + destruct (cr_is_active company); reflexivity.
    + intros Hk. apply in_map_iff in Hk. destruct Hk as (c & <- & Hc).
      apply filter_In in Hc. apply mem_In. exact (proj2 Hc).
    + intros Hk. destruct (proj1 Hcount eq_refl) as [_ Hall].
      destruct (Hall k Hk) as (c & Hc & <-). apply in_map.
      apply filter_In. split; [exact Hc | apply mem_In; exact Hk].
Qed.

Lemma delete_company_run (d : Database F) (company_id : Z) :
  run (delete_company company_id) d
  = match find (fun c => co_id c =? company_id) (companies d) with
    | None =>
        (Raise (mkHTTPException 404 CompanyNotFound),
         mkSession d [Select TCompanies])
    | Some c =>
        let d' :=
          set_companies
            (filter (fun r => negb (co_id r =? co_id c)) (companies d)) d in
        (Ok company_deleted, mkSession d' [Select TCompanies; Commit d'])
    end.
Proof.
  unfold run, delete_company, bind. simpl.
  destruct (find _ (companies d)); reflexivity.
Qed.

(** X14: creating a company and deleting it again gives back the database
    as it was. *)
Theorem create_company_then_delete (d : Database F) (company : CompanyCreate)
    (out : CompanyOut) :
  result_of (create_company company) d = Ok out ->
  result_of (delete_company (out_id out))
    (db_after (create_company company) d) = Ok company_deleted
  /\ db_after (delete_company (out_id out))
       (db_after (create_company company) d) = d.
Proof.
  unfold result_of, db_after. rewrite create_company_run.
  destruct (find_building d (cr_building_id company)) as [b | ];
    [ | discriminate].
  cbv zeta. destruct (Nat.eqb _ _); [ | discriminate].
  intros [= <-]. simpl.
  assert (Hfresh : forall c, In c (companies d) ->
            (co_id c =? next_id (map co_id (companies d))) = false).
  { intros c Hc. apply Z.eqb_neq.
    pose proof (next_id_above (map co_id (companies d)) (co_id c)
                  (in_map co_id _ _ Hc)). lia. }
  rewrite delete_company_run. simpl.
  rewrite find_app_missing by (apply find_none_all; exact Hfresh).
  simpl. rewrite Z.eqb_refl. simpl. split; [reflexivity | ].
  unfold set_companies. simpl. rewrite filter_app. simpl.
  rewrite Z.eqb_refl. simpl. rewrite app_nil_r.
  rewrite filter_all; [destruct d; reflexivity | ].
  intros c Hc. rewrite (Hfresh c Hc). reflexivity.
Qed.

(** X15: [delete_company] answers 404 and changes nothing when the id is
    a key of the store that no company has; when a company has the id, the
    company is gone -- [get_company] on its id answers 404 -- while every
    other id is answered as before and buildings and categories are not
    touched. *)
Theorem delete_company_removes_one (d : Database F) (company_id : Z) :
  match find (fun c => co_id c =? company_id) (companies d) with
  | None =>
      fits_int64 company_id = true ->
      result_of (delete_company company_id) d
      = Raise (mkHTTPException 404 CompanyNotFound)
      /\ db_after (delete_company company_id) d = d
      /\ durable_states (snd (run (delete_company company_id) d)) = []
  | Some _ =>
      result_of (delete_company company_id) d = Ok company_deleted
      /\ result_of (get_company company_id)
           (db_after (delete_company company_id) d)
         = Raise (mkHTTPException 404 CompanyNotFound)
      /\ (forall j, j <> company_id ->
            result_of (get_company j) (db_after (delete_company company_id) d)
            = result_of (get_company j) d)
      /\ buildings (db_after (delete_company company_id) d) = buildings d
      /\ categories (db_after (delete_company company_id) d) = categories d
  end.
Proof.
  unfold result_of, db_after. rewrite delete_company_run.
  destruct (find _ (companies d)) as [c | ] eqn:Hfind.
  - apply find_some in Hfind. destruct Hfind as [_ Hid].
    apply Z.eqb_eq in Hid. cbv zeta. simpl. rewrite Hid.
    split; [reflexivity | ]. split; [ | split; [ | split; reflexivity]].
    + rewrite get_company_run. simpl.
      rewrite (find_remove_same co_id). reflexivity.
    + intros j Hj. rewrite !get_company_run. simpl.
      rewrite (find_remove_other co_id) by exact Hj. reflexivity.
  - intros _. repeat split.
Qed.

Lemma get_companies_by_building_run
    (d : Database F) (building_id : Z) (active_only : bool) :
  run (get_companies_by_building building_id active_only) d
  = match find_building d building_id with
    | None =>
        (Raise (mkHTTPException 404 BuildingNotFound),
         mkSession d [Select TBuildings])
    | Some _ =>
        (Ok (map convert
               (filter (fun c => (co_building_id c =? building_id)
                                 && company_active active_only c)
                  (companies d))),
         mkSession d [Select TBuildings; Select TCompanies])
    end.
Proof.
  unfold run, get_companies_by_building, bind, find_building. simpl.
  destruct (find _ (buildings d)); reflexivity.
Qed.

(** X16: an existing building can be deleted exactly when
    [get_companies_by_building], asked for inactive companies too, lists
    nothing; otherwise the refusal counts the companies it lists, all of
    them in that building. *)
Theorem building_is_deletable_when_empty
    (d : Database F) (building_id : Z) (b : Building F) :
  find_building d building_id = Some b ->
  exists listed,
    result_of (get_companies_by_building building_id false) d = Ok listed
    /\ (forall o, In o listed -> out_building_id o = building_id)
    /\ (listed = [] <->
        result_of (delete_building building_id) d = Ok building_deleted)
    /\ (listed <> [] ->
        result_of (delete_building building_id) d
        = Raise (mkHTTPException 400
                   (CannotDeleteBuilding (Z.of_nat (List.length listed))))).
Proof.
  intros Hfind. unfold result_of.
  rewrite get_companies_by_building_run, delete_building_run, Hfind. simpl.
  assert (Hsame : filter (fun c => (co_building_id c =? building_id) && true)
                    (companies d)
                  = filter (fun c => co_building_id c =? building_id)
                      (companies d)).
  { apply filter_ext. intros c. apply andb_true_r. }
  rewrite Hsame. unfold companies_count.
  set (here := filter (fun c => co_building_id c =? building_id) (companies d)).
  eexists. split; [reflexivity | ]. rewrite length_map. split; [ | split].
  - intros o Ho. apply in_map_iff in Ho. destruct Ho as (c & <- & Hc).
    apply filter_In in Hc. apply Z.eqb_eq. exact (proj2 Hc).
  - destruct here as [| c cs]; simpl.
    + split; reflexivity.
    + split; [discriminate | ].
      destruct (Z.gtb_spec (Z.of_nat (S (List.length cs))) 0); [discriminate | lia].
  - intros Hne. destruct here as [| c cs]; [contradiction | ].
    destruct (Z.gtb_spec (Z.of_nat (List.length (c :: cs))) 0);
      [reflexivity | simpl in *; lia].
Qed.

End CompanyHandlers.

(** ** Companies by category *)

Section CategorySearch.

Context {F : Type}.

Lemma company_join_categories_In
    (on_id : Z -> bool) (d : Database F) (c : Company) :
  In c (company_join_categories on_id d) <->
  In c (companies d)
  /\ exists r, In r (categories d) /\ In (cat_id r) (co_categories c)
               /\ on_id (cat_id r) = true.
Proof.
  unfold company_join_categories. rewrite filter_In, existsb_exists.
  split; intros [Hc H]; (split; [exact Hc | ]).
  - destruct H as (k & Hk & Hb). apply andb_true_iff in Hb.
    destruct Hb as [Hex Hon]. apply existsb_exists in Hex.
    destruct Hex as (r & Hr & Hid). apply Z.eqb_eq in Hid. subst k.
    exists r. auto.
  - destruct H as (r & Hr & Hk & Hon). exists (cat_id r).
    split; [exact Hk | ]. rewrite Hon, andb_true_r.
    apply existsb_exists. exists r. split; [exact Hr | apply Z.eqb_refl].
Qed.

Lemma get_companies_by_category_result
    (d : Database F) (category_id : Z) (include_subcategories active_only : bool) :
  result_of
    (get_companies_by_category category_id include_subcategories active_only) d
  = match find_category d category_id with
    | None => Raise (mkHTTPException 404 CategoryNotFound)
    | Some _ =>
        Ok (map convert
              (filter (company_active active_only)
                 (company_join_categories
                    (if include_subcategories then
                       fun k =>
                         mem k
                           match result_of
                                   (get_all_child_category_ids category_id) d with
                           | Ok ids => ids
                           | Raise _ => []
                           end
                     else fun k => k =? category_id) d)))
    end.
Proof.
  pose proof (get_all_child_category_ids_run d category_id) as Hrun.
  unfold result_of. rewrite Hrun. clear Hrun.
  unfold run, get_companies_by_category, get_all_child_category_ids,
    bind, find_category, query_first, query_all, ret, raise, record, new_session.
  cbn [db executed fst snd].
  destruct (find _ (categories d)) as [a | ] eqn:E; [ | reflexivity].
  destruct include_subcategories; [ | reflexivity].
  cbn [db executed fst snd]. rewrite E.
  destruct (truthy_str (cat_path a)); reflexivity.
Qed.

Lemma listed_companies (keep : Company -> bool) (cs : list Company)
    (o : CompanyOut) :
  In o (map convert (filter keep cs)) <->
  exists c, In c cs /\ o = convert c /\ keep c = true.
Proof.
  rewrite in_map_iff. split.
  - intros (c & <- & Hc). apply filter_In in Hc. exists c. tauto.
  - intros (c & Hc & -> & Hk). exists c. split; [reflexivity | ].
    apply filter_In. tauto.
Qed.

(** X17: in a reachable database, [get_companies_by_category] with
    subcategories lists exactly the companies, active ones only when asked
    so, that are tagged with the category or with a category below it along
    the parent links. *)
Theorem companies_by_category_follow_the_tree
    (d : Database F) (category_id : Z) (target : Category) (active_only : bool) :
  reachable d ->
  find_category d category_id = Some target ->
  exists listed,
    result_of (get_companies_by_category category_id true active_only) d
    = Ok listed
    /\ forall o, In o listed <->
         exists c, In c (companies d) /\ o = convert c
           /\ company_active active_only c = true
           /\ exists r, In r (categories d)
                /\ In (cat_id r) (co_categories c)
                /\ descends d target r.
Proof.
  intros Hreach Hfind.
  destruct (subtree_ids_by_path d category_id target Hreach Hfind)
    as (ids & Hids & Hspec).
  destruct (reachable_categories_ok d Hreach) as [Hnd _].
  assert (Ht : In target (categories d)).
  { unfold find_category in Hfind. apply find_some in Hfind. tauto. }
  rewrite get_companies_by_category_result, Hfind, Hids.
  eexists. split; [reflexivity | ]. intros o.
  rewrite listed_companies. split.
  - intros (c & Hc & -> & Hact).
    apply company_join_categories_In in Hc.
    destruct Hc as (Hc & r & Hr & Hk & Hon).
    exists c. repeat split; try assumption. exists r.
    repeat split; try assumption.
    apply mem_In, Hspec in Hon. destruct Hon as (r' & Hr' & Hid & Hunder).
    assert (r' = r) as -> by (apply (same_id_same_row (categories d)); assumption).
    apply (path_under_iff_descends d target r Hreach Ht Hr). exact Hunder.
  - intros (c & Hc & -> & Hact & r & Hr & Hk & Hdesc).
    exists c. split; [ | split; [reflexivity | exact Hact]].
    apply company_join_categories_In. split; [exact Hc | ].
    exists r. repeat split; try assumption.
    apply mem_In, Hspec. exists r. repeat split; try assumption.
    apply (path_under_iff_descends d target r Hreach Ht Hr). exact Hdesc.
Qed.

(** X18: [get_companies_by_category] answers 404, after one read, when
    the id is a key of the store that no category has.  When a category
    has the id, without subcategories it lists exactly the companies,
    active ones only when asked so, that are tagged with that id, and with
    subcategories it lists at least those. *)
Theorem companies_by_category_direct
    (d : Database F) (category_id : Z) (active_only : bool) :
  match find_category d category_id with
  | None =>
      fits_int64 category_id = true ->
      forall include_subcategories,
        run (get_companies_by_category category_id include_subcategories
               active_only) d
        = (Raise (mkHTTPException 404 CategoryNotFound),
           mkSession d [Select TCategories])
  | Some _ =>
      exists direct all,
        result_of (get_companies_by_category category_id false active_only) d
        = Ok direct
        /\ result_of (get_companies_by_category category_id true active_only) d
           = Ok all
        /\ (forall o, In o direct <->
              exists c, In c (companies d) /\ o = convert c
                /\ company_active active_only c = true
                /\ In category_id (co_categories c))
        /\ incl direct all
  end.
Proof.
  destruct (find_category d category_id) as [a | ] eqn:Hfind.
  - rewrite !get_companies_by_category_result, Hfind.
    assert (Ha : In a (categories d) /\ cat_id a = category_id).
    { unfold find_category in Hfind. apply find_some in Hfind.
      rewrite Z.eqb_eq in Hfind. exact Hfind. }
    destruct Ha as [Ha Hid].
    assert (Hown : exists rest,
              result_of (get_all_child_category_ids category_id) d
              = Ok (category_id :: rest)).
    { unfold result_of. rewrite get_all_child_category_ids_run, Hfind.
      destruct (truthy_str (cat_path a)); eexists; reflexivity. }
    destruct Hown as [rest Hown]. rewrite Hown.
    eexists. eexists. split; [reflexivity | ]. split; [reflexivity | ].
    split.
    + intros o. rewrite listed_companies. split.
      * intros (c & Hc & -> & Hact).
        apply company_join_categories_In in Hc.
        destruct Hc as (Hc & r & Hr & Hk & Hon). apply Z.eqb_eq in Hon.
        rewrite Hon in Hk. exists c. auto.
      * intros (c & Hc & -> & Hact & Hk).
        exists c. split; [ | split; [reflexivity | exact Hact]].
        apply company_join_categories_In. split; [exact Hc | ].
        exists a. rewrite Hid. split; [exact Ha | ]. split; [exact Hk | ].
        apply Z.eqb_refl.
    + intros o. rewrite !listed_companies.
      intros (c & Hc & -> & Hact).
      exists c. split; [ | split; [reflexivity | exact Hact]].
      apply company_join_categories_In in Hc.
      destruct Hc as (Hc & r & Hr & Hk & Hon). apply Z.eqb_eq in Hon.
      apply company_join_categories_In. split; [exact Hc | ].
      exists r. split; [exact Hr | ]. split; [exact Hk | ].
      apply mem_In. left. symmetry. exact Hon.
  - intros _ sub.
    unfold run, get_companies_by_category, bind, query_first, raise, record,
      new_session.
    cbn [db executed fst snd]. unfold find_category in Hfind. rewrite Hfind.
    reflexivity.
Qed.

End CategorySearch.

Section SubtreeGrowth.

Context {F : Type}.

Lemma path_matches_under (tpath : string) (target c : Category) :
  path_shape tpath = true -> cat_path target = Some tpath ->
  path_matches tpath c = true <-> path_under target c.
Proof.
  intros Hshape Htp. rewrite (path_matches_spec tpath c Hshape).
  unfold path_under. split.
  - intros (p & Hp & Hcases). exists tpath, p. auto.
  - intros (tp & p & Htp' & Hp & Hcases). rewrite Htp in Htp'.
    injection Htp' as <-. exists p. auto.
Qed.

(** The row [create_category] adds under the parent it found. *)
Lemma child_path_under (target parent c : Category) (ppath : string) :
  cat_path parent = Some ppath ->
  cat_path c = Some (ppath ++ String slash (str (cat_id c)))%string ->
  0 < cat_id c ->
  (forall tp, cat_path target = Some tp ->
     tp <> (ppath ++ String slash (str (cat_id c)))%string) ->
  path_under target c <-> path_under target parent.
Proof.
  intros Hpp Hcp Hpos Hother. split.
  - intros (tp & p & Htp & Hp & Hcases). rewrite Hcp in Hp.
    injection Hp as <-. exists tp, ppath.
    split; [exact Htp | ]. split; [exact Hpp | ].
    destruct Hcases as [E | [rest E]].
    + exfalso. exact (Hother tp Htp (eq_sym E)).
    + destruct (same_tail _ _ _ _ (str_no_slash _ Hpos) (eq_sym E))
        as [[-> _] | (r' & _ & ->)]; [left; reflexivity | right; eauto].
  - intros Hunder.
    apply (path_under_trans target parent c Hunder).
    exists ppath, (ppath ++ String slash (str (cat_id c)))%string.
    split; [exact Hpp | ]. split; [exact Hcp | ]. right. eauto.
Qed.

Lemma create_category_new_row
    (d : Database F) (category : CategoryCreate) (c : Category) :
  reachable d ->
  result_of (create_category category) d = Ok c ->
  categories (db_after (create_category category) d) = categories d ++ [c]
  /\ cat_id c = next_id (map cat_id (categories d))
  /\ ((truthy_int (cat_parent_id c) = None
       /\ cat_path c = Some (str (cat_id c)))
      \/ exists pid parent ppath,
           cat_parent_id c = Some pid /\ pid <> 0
           /\ find_category d pid = Some parent
           /\ cat_path parent = Some ppath
           /\ cat_path c
              = Some (ppath ++ String slash (str (cat_id c)))%string).
Proof.
  intros Hreach. destruct (reachable_categories_ok d Hreach) as [_ Hall].
  unfold result_of, db_after.
  pose proof (create_category_outcome d category) as H. cbv zeta in H.
  destruct (truthy_int (cc_parent_id category)) as [pid | ] eqn:Hpid.
  - destruct (find_category d pid) as [parent | ] eqn:Hfind; rewrite H;
      [ | discriminate].
    cbn [fst snd db]. intros [= <-].
    split; [reflexivity | ]. split; [reflexivity | ]. right.
    apply truthy_int_some in Hpid. destruct Hpid as [Hpid Hnz].
    assert (Hin : In parent (categories d)).
    { unfold find_category in Hfind. apply find_some in Hfind. tauto. }
    destruct (Hall parent Hin) as (_ & pp & Hpp & Hshape).
    exists pid, parent, pp. rewrite Hpp, (truthy_str_shape pp Hshape).
    repeat split; assumption.
  - rewrite H. cbn [fst snd db]. intros [= <-].
    split; [reflexivity | ]. split; [reflexivity | ]. left.
    split; [exact Hpid | reflexivity].
Qed.

Lemma nothing_kept {A} (l : list A) : (forall x, ~ In x l) -> l = [].
Proof.
  destruct l as [| x l]; [reflexivity | ].
  intros H. exfalso. apply (H x). left. reflexivity.
Qed.

(** X19: what creating a category does to the subtrees, in a reachable
    database: the subtree of an existing category gains the new id, at the
    end, exactly when the parent id of the new category lies in it, and is
    unchanged otherwise; the subtree of the new category is the new id
    alone. *)
Theorem create_category_grows_subtrees
    (d : Database F) (category : CategoryCreate) (c target : Category)
    (category_id : Z) (ids : list Z) :
  reachable d ->
  result_of (create_category category) d = Ok c ->
  find_category d category_id = Some target ->
  result_of (get_all_child_category_ids category_id) d = Ok ids ->
  result_of (get_all_child_category_ids category_id)
    (db_after (create_category category) d)
  = Ok (if match cat_parent_id c with
           | Some pid => mem pid ids
           | None => false
           end
        then ids ++ [cat_id c] else ids)
  /\ result_of (get_all_child_category_ids (cat_id c))
       (db_after (create_category category) d)
     = Ok [cat_id c].
Proof.
  intros Hreach Hres Hfind Hids.
  assert (Hreach' : reachable (db_after (create_category category) d))
    by (apply reach_create_category; exact Hreach).
  destruct (create_category_new_row d category c Hreach Hres)
    as (Hcats & Hnew & Hrow).
  destruct (reachable_categories_ok d Hreach) as [Hnd Hall].
  destruct (reachable_categories_ok _ Hreach') as [Hnd' Hall'].
  set (d' := db_after (create_category category) d) in *.
  assert (Hc' : In c (categories d'))
    by (rewrite Hcats; apply in_or_app; right; left; reflexivity).
  assert (Hold : forall r, In r (categories d) -> In r (categories d'))
    by (intros r Hr; rewrite Hcats; apply in_or_app; left; exact Hr).
  assert (Hfresh : forall r, In r (categories d) -> cat_id r <> cat_id c).
  { intros r Hr. rewrite Hnew. apply Z.eqb_neq, next_id_fresh. exact Hr. }
  destruct (Hall' c Hc') as (Hpos & cpath & Hcpath & Hcshape).
  assert (Ht : In target (categories d) /\ cat_id target = category_id).
  { unfold find_category in Hfind. apply find_some in Hfind.
    rewrite Z.eqb_eq in Hfind. exact Hfind. }
  destruct Ht as [Ht Htid].
  destruct (Hall target Ht) as (_ & tpath & Htpath & Htshape).
  (* No row of the old table has the path of the new one. *)
  assert (Hother : forall r p, In r (categories d) -> cat_path r = Some p ->
            p <> cpath).
  { intros r p Hr Hp ->. apply (Hfresh r Hr). f_equal.
    apply (path_names_row d' r c Hreach' (Hold r Hr) Hc'). congruence. }
  split.
  - (* the subtree of an existing category *)
    destruct (subtree_ids_by_path d category_id target Hreach Hfind)
      as (ids0 & Hids0 & Hspec).
    rewrite Hids in Hids0. injection Hids0 as <-.
    assert (Hmatch : path_matches tpath c
                     = match cat_parent_id c with
                       | Some pid => mem pid ids
                       | None => false
                       end).
    { apply eq_true_iff_eq.
      rewrite (path_matches_under tpath target c Htshape Htpath).
      destruct Hrow as [[Hroot Hpath] | (pid & parent & pp & Hpid & Hnz & Hpar
                                         & Hpp & Hpath)].
      - split.
        + intros (tp & p & Htp & Hp & Hcases). exfalso.
          rewrite Hpath in Hp. injection Hp as <-.
          rewrite Hcpath in Hpath. injection Hpath as ->.
          destruct Hcases as [E | [rest E]].
          * exact (Hother target tp Ht Htp (eq_sym E)).
          * exact (no_slash_inside _ _ _ (str_no_slash _ Hpos) E).
        + destruct (cat_parent_id c) as [pid | ]; [ | discriminate].
          intros Hm. exfalso. apply mem_In, Hspec in Hm.
          destruct Hm as (r & Hr & Hid & _).
          apply truthy_int_none in Hroot.
          destruct Hroot as [Hroot | Hroot]; [discriminate Hroot | ].
          injection Hroot as ->. destruct (Hall r Hr) as [Hrpos _]. lia.
      - rewrite Hpid.
        assert (Hparent : In parent (categories d) /\ cat_id parent = pid).
        { unfold find_category in Hpar. apply find_some in Hpar.
          rewrite Z.eqb_eq in Hpar. exact Hpar. }
        destruct Hparent as [Hparent Hparid].
        rewrite (child_path_under target parent c pp Hpp Hpath Hpos).
        + rewrite mem_In, Hspec. split.
          * intros Hunder. exists parent. auto.
          * intros (r & Hr & Hid & Hunder).
            assert (r = parent) as ->
              by (apply (same_id_same_row (categories d)); congruence).
            exact Hunder.
        + intros tp Htp. rewrite Hcpath in Hpath. injection Hpath as <-.
          exact (Hother target tp Ht Htp). }
    rewrite <- Hmatch.
    unfold result_of in Hids |- *.
    rewrite get_all_child_category_ids_run in Hids |- *.
    rewrite Hfind in Hids.
    assert (Hfind' : find_category d' category_id = Some target).
    { unfold find_category in Hfind |- *. rewrite Hcats.
      apply find_app_found. exact Hfind. }
    rewrite Hfind'.
    rewrite Htpath, (truthy_str_shape tpath Htshape) in Hids |- *.
    cbn [fst] in Hids |- *. injection Hids as <-.
    rewrite Hcats, !filter_app, map_app. cbn [filter].
    destruct (path_matches tpath c); cbn [filter map];
      [ | rewrite app_nil_r; reflexivity].
    destruct (Z.eqb_spec (cat_id c) category_id) as [E | _].
    + exfalso. apply (Hfresh target Ht). congruence.
    + reflexivity.
  - (* the subtree of the new category *)
    assert (Hfind' : find_category d' (cat_id c) = Some c).
    { unfold find_category. apply find_by_id; assumption. }
    assert (Hleaf : forall r, In r (categories d') -> parent_of d' r <> Some c).
    { intros r Hr Hp. unfold parent_of in Hp.
      destruct (cat_parent_id r) as [pid | ] eqn:Hpid; [ | discriminate].
      assert (pid = cat_id c) as ->.
      { unfold find_category in Hp. apply find_some in Hp.
        rewrite Z.eqb_eq in Hp. symmetry. tauto. }
      assert (Hnone : find (fun x => cat_id x =? cat_id c) (categories d) = None).
      { apply find_none_all. intros x Hx. apply Z.eqb_neq, Hfresh. exact Hx. }
      rewrite Hcats in Hr. apply in_app_or in Hr.
      destruct Hr as [Hr | [<- | []]].
      - pose proof (reachable_rows_ok d Hreach r Hr) as Hok.
        unfold row_ok in Hok. rewrite Hpid, Hnone in Hok.
        apply andb_true_iff in Hok. destruct Hok as [Hz _].
        apply Z.eqb_eq in Hz. lia.
      - destruct Hrow as [[Hroot _] | (pid & parent & pp & Hpid' & _ & Hpar & _)].
        + rewrite Hpid in Hroot. apply truthy_int_none in Hroot.
          destruct Hroot as [Hroot | Hroot]; [discriminate Hroot | ].
          injection Hroot as Hroot. lia.
        + rewrite Hpid in Hpid'. injection Hpid' as <-.
          unfold find_category in Hpar. rewrite Hnone in Hpar.
          discriminate Hpar. }
    assert (Hself : forall r, descends d' c r -> In r (categories d') -> r = c).
    { intros r Hdesc. induction Hdesc as [| r p Hp Hdesc IH]; [reflexivity | ].
      intros Hr. exfalso. apply (Hleaf r Hr). rewrite Hp. f_equal.
      apply IH. unfold parent_of in Hp.
      destruct (cat_parent_id r); [ | discriminate].
      unfold find_category in Hp. apply find_some in Hp. tauto. }
    unfold result_of. rewrite get_all_child_category_ids_run, Hfind'.
    rewrite Hcpath, (truthy_str_shape cpath Hcshape). cbn [fst].
    rewrite (nothing_kept (filter _ (filter _ (categories d')))); [reflexivity | ].
    intros r Hr. apply filter_In in Hr. destruct Hr as [Hr Hne].
    apply filter_In in Hr. destruct Hr as [Hr Hm].
    apply (path_matches_under cpath c r Hcshape Hcpath) in Hm.
    apply (path_under_iff_descends d' c r Hreach' Hc' Hr) in Hm.
    rewrite (Hself r Hm Hr), Z.eqb_refl in Hne. discriminate Hne.
Qed.

End SubtreeGrowth.

(** ** Search by name *)

Lemma like_any_run (p s : string) (d : ascii) :
  like (String "%" p) (String d s)
  = like p (String d s) || like (String "%" p) s.
Proof. reflexivity. Qed.

Lemma like_percent_skip (p s : string) :
  like p s = true -> like (String "%" p) s = true.
Proof.
  intros H. destruct s as [| d s].
  - simpl. rewrite H. reflexivity.
  - rewrite like_any_run, H. reflexivity.
Qed.

Lemma like_own_text (q q' b : string) :
  same_letters q q' = true ->
  like (q ++ String "%" EmptyString) (q' ++ b) = true.
Proof.
  revert q'. induction q as [| c q IH]; intros [| c' q']; try discriminate.
  - intros _. apply like_percent.
  - cbn [same_letters]. rewrite andb_true_iff. intros [Hc Hq].
    specialize (IH q' Hq).
    change ((String c q ++ String "%" EmptyString)%string)
      with (String c (q ++ String "%" EmptyString)).
    change ((String c' q' ++ b)%string) with (String c' (q' ++ b)).
    destruct (Ascii.eqb_spec c "%") as [-> | Hpc].
    + rewrite like_any_run, (like_percent_skip _ _ IH). apply orb_true_r.
    + cbn [like]. destruct (Ascii.eqb_spec c "%") as [E | _]; [contradiction | ].
      rewrite Hc, IH. destruct (Ascii.eqb c "_"); reflexivity.
Qed.

Lemma like_contains (q q' a b : string) :
  same_letters q q' = true ->
  like (String "%" (q ++ String "%" EmptyString)) (a ++ q' ++ b) = true.
Proof.
  intros Hq. induction a as [| x a IH].
  - apply like_percent_skip. exact (like_own_text q q' b Hq).
  - change ((String x a ++ q' ++ b)%string) with (String x (a ++ q' ++ b)).
    rewrite like_any_run, IH. apply orb_true_r.
Qed.

Lemma same_letters_refl (q : string) : same_letters q q = true.
Proof.
  induction q as [| c q IH]; [reflexivity | ].
  cbn [same_letters]. rewrite Ascii.eqb_refl, IH. reflexivity.
Qed.

Section Search.

Context {F : Type}.

(** X20: the search by name finds every company, active ones only when
    asked so, whose name contains the query, letter case of ASCII letters
    aside; what it lists are companies of the table, and it writes
    nothing. *)
Theorem search_finds_names_containing_query
    (d : Database F) (q q' a b : string) (active_only : bool) (c : Company) :
  In c (companies d) ->
  co_name c = (a ++ q' ++ b)%string ->
  same_letters q q' = true ->
  company_active active_only c = true ->
  exists listed,
    result_of (search_companies_by_name q active_only) d = Ok listed
    /\ In (convert c) listed
    /\ (forall o, In o listed ->
          exists c', In c' (companies d) /\ o = convert c'
                     /\ company_active active_only c' = true)
    /\ db_after (search_companies_by_name q active_only) d = d.
Proof.
  intros Hc Hname Hq Hact.
  unfold result_of, db_after, run, search_companies_by_name, bind. simpl.
  eexists. split; [reflexivity | ]. split; [ | split; [ | reflexivity]].
  - apply in_map, filter_In. split; [exact Hc | ].
    unfold name_contains. rewrite Hname, (like_contains q q' a b Hq), Hact.
    reflexivity.
  - intros o Ho. apply in_map_iff in Ho. destruct Ho as (c' & <- & Hc').
    apply filter_In in Hc'. destruct Hc' as [Hc' Hkeep].
    apply andb_true_iff in Hkeep. exists c'. tauto.
Qed.

End Search.

(** ** Search by location, floats read as real numbers *)

Section Location.

Local Open Scope R_scope.

Lemma Rleb_true (a b : R) : Rleb a b = true <-> a <= b.
Proof. unfold Rleb. destruct (Rle_dec a b); split; auto; discriminate. Qed.

Lemma loads_commit_nothing (d : Database R) (log : list (Statement R))
    (loads : list Z) :
  durable_states
    (mkSession d (log ++ map (fun _ => Select TBuildings) loads))
  = durable_states (mkSession d log).
Proof.
  unfold durable_states. cbn [executed]. rewrite flat_map_app.
  induction loads as [| k loads IH]; [apply app_nil_r | exact IH].
Qed.

Lemma location_by_radius
    (d : Database R) (latitude longitude radius_km : R)
    (min_lat max_lat min_lng max_lng : option R) (active_only : bool) :
  run (get_companies_by_location latitude longitude (Some radius_km)
         min_lat max_lat min_lng max_lng active_only) d
  = (Ok (map (fun cb => convert (fst cb))
           (filter (within_radius latitude longitude radius_km)
              (filter (active_filter active_only) (company_join_building d)))),
     mkSession d
       ([Select TCompanies]
        ++ map (fun _ => Select TBuildings)
             (nodup Z.eq_dec
                (map (fun cb => bld_id (snd cb))
                   (filter (active_filter active_only)
                      (company_join_building d)))))).
Proof.
  assert (Hloop : forall l,
            radius_loop latitude longitude radius_km l
            = filter (within_radius latitude longitude radius_km) l).
  { intros l.
    exact (fold_left_filter (within_radius latitude longitude radius_km) l []). }
  unfold run, get_companies_by_location, bind, query_all, load_buildings, ret,
    record, new_session.
  cbn [db executed fst snd app]. rewrite Hloop. reflexivity.
Qed.

Lemma haversine_self (lat lon : R) :
  calculate_distance_haversine lat lon lat lon = 0.
Proof.
  rewrite haversine_real.
  replace ((lat * (PI / 180) - lat * (PI / 180)) / 2) with 0 by lra.
  replace ((lon * (PI / 180) - lon * (PI / 180)) / 2) with 0 by lra.
  rewrite sin_0.
  replace (0 ^ 2 + cos (lat * (PI / 180)) * cos (lat * (PI / 180)) * 0 ^ 2)
    with 0 by ring.
  rewrite sqrt_0, asin_0. ring.
Qed.



End Location.

(** ** More on the Haversine distance, over the real numbers *)

Section HaversineBounds.

Local Open Scope R_scope.

Lemma asin_nonneg (x : R) : 0 <= x <= 1 -> 0 <= asin x.
Proof.
  intros Hx. destruct (Rle_or_lt 0 (asin x)) as [H | H]; [exact H | ].
  exfalso. pose proof (asin_bound x) as [Hlow _].
  assert (Hsin : sin (asin x) < 0).
  { apply sin_lt_0_var; [ | exact H]. pose proof PI_RGT_0. lra. }
  rewrite sin_asin in Hsin by lra. lra.
Qed.

Lemma cos_product (s u : R) :
  cos (s - u) * cos (s + u) = cos s * cos s - sin u * sin u.
Proof.
  rewrite cos_minus, cos_plus.
  pose proof (sin2_cos2 s) as Hs. pose proof (sin2_cos2 u) as Hu.
  unfold Rsqr in Hs, Hu.
  replace ((cos s * cos u + sin s * sin u) * (cos s * cos u - sin s * sin u))
    with (cos s * cos s * (cos u * cos u) - sin s * sin s * (sin u * sin u))
    by ring.
  replace (cos u * cos u) with (1 - sin u * sin u) by lra.
  replace (sin s * sin s) with (1 - cos s * cos s) by lra. ring.
Qed.

(** The quantity under the square root lies between 0 and 1 when both
    latitudes are latitudes. *)
Lemma haversine_argument (x y v : R) :
  - (PI / 2) <= x <= PI / 2 -> - (PI / 2) <= y <= PI / 2 ->
  0 <= sin ((y - x) / 2) ^ 2 + cos x * cos y * sin v ^ 2 <= 1.
Proof.
  intros Hx Hy.
  assert (Hcx : 0 <= cos x) by (apply cos_ge_0; lra).
  assert (Hcy : 0 <= cos y) by (apply cos_ge_0; lra).
  pose proof (sin2_cos2 v) as Hv. unfold Rsqr in Hv.
  pose proof (sin2_cos2 ((y - x) / 2)) as Hu. unfold Rsqr in Hu.
  pose proof (sin2_cos2 ((y + x) / 2)) as Hs. unfold Rsqr in Hs.
  assert (Hprod : cos x * cos y
                  = cos ((y + x) / 2) * cos ((y + x) / 2)
                    - sin ((y - x) / 2) * sin ((y - x) / 2)).
  { rewrite <- (cos_product ((y + x) / 2) ((y - x) / 2)).
    f_equal; f_equal; lra. }
  set (P := cos x * cos y) in *.
  set (su := sin ((y - x) / 2)) in *. set (sv := sin v) in *.
  assert (HP : 0 <= P) by (apply Rmult_le_pos; assumption).
  assert (Hsv : 0 <= sv * sv <= 1) by nra.
  replace (su ^ 2) with (su * su) by ring.
  replace (sv ^ 2) with (sv * sv) by ring.
  split; [nra | ].
  assert (P * (sv * sv) <= P) by nra. nra.
Qed.


(** X24: along a meridian, and along the equator, the distance is the
    length of the arc: the difference in degrees, in radians, times the
    radius of 6371 km. *)
Theorem haversine_arc (lo hi other : R) :
  lo <= hi -> hi - lo <= 180 ->
  calculate_distance_haversine lo other hi other
  = 6371 * ((hi - lo) * (PI / 180))
  /\ calculate_distance_haversine 0 lo 0 hi
     = 6371 * ((hi - lo) * (PI / 180)).
Proof.
  intros Hle Hspan. pose proof PI_RGT_0 as Hpi.
  set (u := (hi * (PI / 180) - lo * (PI / 180)) / 2).
  assert (Hu : 0 <= u <= PI / 2) by (unfold u; split; nra).
  assert (Hsin : 0 <= sin u) by (apply sin_ge_0; lra).
  assert (Hroot : sqrt (sin u ^ 2) = sin u) by (apply sqrt_pow2; exact Hsin).
  assert (Hasin : asin (sin u) = u) by (apply asin_sin; lra).
  split; rewrite haversine_real; fold u.
  - replace ((other * (PI / 180) - other * (PI / 180)) / 2) with 0 by lra.
    rewrite sin_0.
    replace (sin u ^ 2 + cos (lo * (PI / 180)) * cos (hi * (PI / 180)) * 0 ^ 2)
      with (sin u ^ 2) by ring.
    rewrite Hroot, Hasin. unfold u. lra.
  - replace ((0 * (PI / 180) - 0 * (PI / 180)) / 2) with 0 by lra.
    replace (0 * (PI / 180)) with 0 by lra.
    rewrite sin_0, cos_0.
    replace (0 ^ 2 + 1 * 1 * sin u ^ 2) with (sin u ^ 2) by ring.
    rewrite Hroot, Hasin. unfold u. lra.
Qed.

End HaversineBounds.

(** ** Listing and statistics *)

Section Listing.

Context {F : Type}.

(** X25: the pages of [list_companies] follow one another in the order of
    the table, restricted to the active companies when asked so: a page of
    [l1] and the next page of [l2] make up the page of [l1 + l2]; a page
    holds at most [limit] companies, each one a company of the table that
    passes the filter; a page from 0 that is long enough is the whole
    table, or all of its active companies, in the order of the table. *)
Theorem list_companies_pages
    (d : Database F) (skip l1 l2 : Z) (active_only : bool) :
  0 <= skip -> 0 <= l1 -> 0 <= l2 -> fits_int64 (skip + l1 + l2) = true ->
  exists p1 p2,
    result_of (list_companies skip l1 active_only) d = Ok p1
    /\ result_of (list_companies (skip + l1) l2 active_only) d = Ok p2
    /\ result_of (list_companies skip (l1 + l2) active_only) d = Ok (p1 ++ p2)
    /\ Z.of_nat (List.length p1) <= l1
    /\ (forall o, In o p1 ->
          exists c, In c (companies d) /\ o = convert c
                    /\ company_active active_only c = true)
    /\ (Z.of_nat
          (List.length
             (filter (fun c => if active_only then co_is_active c =? 1 else true)
                (companies d))) <= l1 ->
        result_of (list_companies 0 l1 active_only) d
        = Ok (map convert
                (filter (fun c => if active_only then co_is_active c =? 1
                                  else true)
                   (companies d))))
    /\ db_after (list_companies skip l1 active_only) d = d.
Proof.
  intros Hs H1 H2 _.
  unfold result_of, db_after, run, list_companies, query_page, bind. simpl.
  eexists. eexists.
  split; [reflexivity | ]. split; [reflexivity | ].
  split; [rewrite page_sum, map_app by assumption; reflexivity | ].
  split; [rewrite length_map; apply page_length; exact H1 | ].
  split; [ | split; [ | reflexivity]].
  - intros o Ho. apply in_map_iff in Ho. destruct Ho as (c & <- & Hc).
    apply page_incl, filter_In in Hc. exists c. tauto.
  - intros Hlen. rewrite page_all by exact Hlen. reflexivity.
Qed.

Lemma count_by_flag (cs : list Company) :
  let count p := Z.of_nat (List.length (filter p cs)) in
  count (fun c => co_is_active c =? 1) + count (fun c => co_is_active c =? 0)
  <= Z.of_nat (List.length cs)
  /\ ((forall c, In c cs -> co_is_active c = 0 \/ co_is_active c = 1) ->
      count (fun c => co_is_active c =? 1) + count (fun c => co_is_active c =? 0)
      = Z.of_nat (List.length cs)).
Proof.
  cbv zeta. induction cs as [| c cs [IHle IHeq]]; [split; reflexivity | ].
  cbn [filter].
  destruct (Z.eqb_spec (co_is_active c) 1) as [E1 | E1];
    destruct (Z.eqb_spec (co_is_active c) 0) as [E0 | E0];
    try lia; cbn [List.length]; (split; [lia | ]); intros Hflags;
    try (destruct (Hflags c (or_introl eq_refl)); lia);
    specialize (IHeq (fun x Hx => Hflags x (or_intror Hx))); lia.
Qed.

Lemma filter_true {A} (l : list A) : filter (fun _ => true) l = l.
Proof. induction l as [| x l IH]; simpl; [reflexivity | now rewrite IH]. Qed.

Lemma get_statistics_result (d : Database F) :
  run get_statistics d
  = (Ok (mkStatistics
           (Z.of_nat (List.length (buildings d)))
           (Z.of_nat (List.length (categories d)))
           (Z.of_nat (List.length (companies d)))
           (Z.of_nat (List.length
                        (filter (fun c => co_is_active c =? 1) (companies d))))
           (Z.of_nat (List.length
                        (filter (fun c => co_is_active c =? 0) (companies d))))),
     mkSession d [Select TBuildings; Select TCategories; Select TCompanies;
                  Select TCompanies; Select TCompanies]).
Proof.
  unfold run, get_statistics, bind, query_count, ret, record, new_session.
  cbn [db executed fst snd app]. rewrite !filter_true. reflexivity.
Qed.

(** X26: the statistics count the active and the inactive companies
    apart: together they are never more than the total, and they add up
    to it when every company's flag is 0 or 1; the handler only reads. *)
Theorem statistics_add_up (d : Database F) :
  exists st,
    result_of get_statistics d = Ok st
    /\ st_buildings st = Z.of_nat (List.length (buildings d))
    /\ st_categories st = Z.of_nat (List.length (categories d))
    /\ st_companies_total st = Z.of_nat (List.length (companies d))
    /\ st_companies_active st + st_companies_inactive st
       <= st_companies_total st
    /\ ((forall c, In c (companies d) ->
           co_is_active c = 0 \/ co_is_active c = 1) ->
        st_companies_active st + st_companies_inactive st
        = st_companies_total st)
    /\ db_after get_statistics d = d
    /\ durable_states (snd (run get_statistics d)) = [].
Proof.
  unfold result_of, db_after. rewrite get_statistics_result.
  eexists. split; [reflexivity | ]. cbn [fst snd db].
  pose proof (count_by_flag (companies d)) as [Hle Heq]. cbv zeta in Hle, Heq.
  repeat split; try assumption.
Qed.

(** X27: a company created shows in the statistics: the total grows by
    one, and so does the count of active companies, or of inactive ones,
    as the request says; buildings and categories count as before. *)
Theorem statistics_follow_create_company
    (d : Database F) (company : CompanyCreate) (out : CompanyOut)
    (st : Statistics) :
  result_of (create_company company) d = Ok out ->
  result_of get_statistics d = Ok st ->
  result_of get_statistics (db_after (create_company company) d)
  = Ok (mkStatistics (st_buildings st) (st_categories st)
          (st_companies_total st + 1)
          (st_companies_active st + (if cr_is_active company then 1 else 0))
          (st_companies_inactive st + (if cr_is_active company then 0 else 1))).
Proof.
  unfold result_of, db_after. rewrite !get_statistics_result.
  rewrite create_company_run.
  destruct (find_building d (cr_building_id company)) as [b | ];
    [ | discriminate].
  cbv zeta. destruct (Nat.eqb _ _); [ | discriminate].
  intros _ [= <-]. cbn [fst snd db set_companies buildings categories companies].
  rewrite !filter_app, !length_app.
  destruct (cr_is_active company); simpl; f_equal; f_equal; lia.
Qed.

End Listing.

(** *** At sample inputs *)

Lemma town_db_reachable : reachable town_db.
Proof.
  apply (reach_other_handler food_db); [ | reflexivity].
  apply reach_create_category, reach_empty.
Qed.


Lemma create_building_then_delete_witness :
  companies_housed town_db
  /\ exists row,
       result_of (create_building (mkBuildingCreate "Gagarina 7" 1%R 1%R))
         town_db = Ok row
       /\ result_of (delete_building (bld_id row))
            (db_after (create_building (mkBuildingCreate "Gagarina 7" 1%R 1%R))
               town_db) = Ok building_deleted
       /\ db_after (delete_building (bld_id row))
            (db_after (create_building (mkBuildingCreate "Gagarina 7" 1%R 1%R))
               town_db) = town_db.
Proof.
  assert (H : companies_housed town_db).
  { intros c [<- | []]. discriminate. }
  split; [exact H | ].
  exact (create_building_then_delete town_db _ H).
Defined.

Lemma delete_building_twice_witness :
  result_of (delete_building 2) town_db = Ok building_deleted
  /\ result_of (delete_building 2) (db_after (delete_building 2) town_db)
     = Raise (mkHTTPException 404 BuildingNotFound)
  /\ result_of (get_building 2) (db_after (delete_building 2) town_db)
     = Raise (mkHTTPException 404 BuildingNotFound).
Proof.
  assert (H : result_of (delete_building 2) town_db = Ok building_deleted)
    by reflexivity.
  split; [exact H | ].
  exact (delete_building_twice town_db 2 H).
Defined.

Lemma create_company_accepts_witness :
  reachable town_db
  /\ fits_int64 (cr_building_id firm) = true
  /\ (forall k, In k (cr_category_ids firm) -> fits_int64 k = true)
  /\ ((exists out, result_of (create_company firm) town_db = Ok out)
      <-> (exists b, find_building town_db (cr_building_id firm) = Some b)
          /\ NoDup (cr_category_ids firm)
          /\ forall k, In k (cr_category_ids firm) ->
               exists c, find_category town_db k = Some c)
  /\ (forall e, result_of (create_company firm) town_db = Raise e ->
        status_code e = 404
        /\ db_after (create_company firm) town_db = town_db
        /\ durable_states (snd (run (create_company firm) town_db)) = []).
Proof.
  assert (Hb : fits_int64 (cr_building_id firm) = true) by reflexivity.
  assert (Hk : forall k, In k (cr_category_ids firm) -> fits_int64 k = true)
    by (intros k [<- | []]; reflexivity).
  split; [exact town_db_reachable | ]. split; [exact Hb | ].
  split; [exact Hk | ].
  exact (create_company_accepts town_db firm town_db_reachable Hb Hk).
Defined.

Lemma create_company_then_get_witness :
  reachable town_db
  /\ result_of (create_company firm) town_db = Ok firm_out
  /\ 0 < out_id firm_out
  /\ (forall c, In c (companies town_db) -> co_id c <> out_id firm_out)
  /\ exists got,
       result_of (get_company (out_id firm_out))
         (db_after (create_company firm) town_db) = Ok got
       /\ out_id got = out_id firm_out
       /\ out_name got = cr_name firm
       /\ out_description got = cr_description firm
       /\ out_website got = cr_website firm
       /\ out_email got = cr_email firm
       /\ out_building_id got = cr_building_id firm
       /\ out_is_active got = cr_is_active firm
       /\ forall k, In k (out_categories got) <-> In k (cr_category_ids firm).
Proof.
  assert (H : result_of (create_company firm) town_db = Ok firm_out)
    by reflexivity.
  split; [exact town_db_reachable | ]. split; [exact H | ].
  exact (create_company_then_get town_db firm firm_out town_db_reachable H).
Defined.

Lemma create_company_then_delete_witness :
  result_of (create_company firm) town_db = Ok firm_out
  /\ result_of (delete_company (out_id firm_out))
       (db_after (create_company firm) town_db) = Ok company_deleted
  /\ db_after (delete_company (out_id firm_out))
       (db_after (create_company firm) town_db) = town_db.
Proof.
  assert (H : result_of (create_company firm) town_db = Ok firm_out)
    by reflexivity.
  split; [exact H | ].
  exact (create_company_then_delete town_db firm firm_out H).
Defined.

Lemma building_is_deletable_when_empty_witness :
  find_building town_db 1 = Some office
  /\ exists listed,
       result_of (get_companies_by_building 1 false) town_db = Ok listed
       /\ (forall o, In o listed -> out_building_id o = 1)
       /\ (listed = [] <->
           result_of (delete_building 1) town_db = Ok building_deleted)
       /\ (listed <> [] ->
           result_of (delete_building 1) town_db
           = Raise (mkHTTPException 400
                      (CannotDeleteBuilding (Z.of_nat (List.length listed))))).
Proof.
  assert (H : find_building town_db 1 = Some office) by reflexivity.
  split; [exact H | ].
  exact (building_is_deletable_when_empty town_db 1 office H).
Defined.

Lemma companies_by_category_follow_the_tree_witness :
  reachable town_db
  /\ find_category town_db 1 = Some food_row
  /\ exists listed,
       result_of (get_companies_by_category 1 true true) town_db = Ok listed
       /\ forall o, In o listed <->
            exists c, In c (companies town_db) /\ o = convert c
              /\ company_active true c = true
              /\ exists r, In r (categories town_db)
                   /\ In (cat_id r) (co_categories c)
                   /\ descends town_db food_row r.
Proof.
  assert (H : find_category town_db 1 = Some food_row) by reflexivity.
  split; [exact town_db_reachable | ]. split; [exact H | ].
  exact (companies_by_category_follow_the_tree town_db 1 food_row true
           town_db_reachable H).
Defined.

Lemma create_category_grows_subtrees_witness :
  reachable food_db
  /\ result_of (create_category meat) food_db = Ok meat_row
  /\ find_category food_db 1 = Some food_row
  /\ result_of (get_all_child_category_ids 1) food_db = Ok [1]
  /\ result_of (get_all_child_category_ids 1)
       (db_after (create_category meat) food_db)
     = Ok (if match cat_parent_id meat_row with
              | Some pid => mem pid [1]
              | None => false
              end
           then [1] ++ [cat_id meat_row] else [1])
  /\ result_of (get_all_child_category_ids (cat_id meat_row))
       (db_after (create_category meat) food_db)
     = Ok [cat_id meat_row].
Proof.
  assert (H0 : reachable food_db)
    by (apply reach_create_category, reach_empty).
  assert (H1 : result_of (create_category meat) food_db = Ok meat_row)
    by reflexivity.
  assert (H2 : find_category food_db 1 = Some food_row) by reflexivity.
  assert (H3 : result_of (get_all_child_category_ids 1) food_db = Ok [1])
    by reflexivity.
  repeat (split; [assumption | ]).
  exact (create_category_grows_subtrees food_db meat meat_row food_row 1 [1]
           H0 H1 H2 H3).
Defined.

Lemma search_finds_names_containing_query_witness :
  In tenant (companies town_db)
  /\ co_name tenant = ("Horns and " ++ "Hooves" ++ "")%string
  /\ same_letters "HOOVES" "Hooves" = true
  /\ company_active true tenant = true
  /\ exists listed,
       result_of (search_companies_by_name "HOOVES" true) town_db = Ok listed
       /\ In (convert tenant) listed
       /\ (forall o, In o listed ->
             exists c', In c' (companies town_db) /\ o = convert c'
                        /\ company_active true c' = true)
       /\ db_after (search_companies_by_name "HOOVES" true) town_db = town_db.
Proof.
  assert (H0 : In tenant (companies town_db)) by (left; reflexivity).
  assert (H1 : co_name tenant = ("Horns and " ++ "Hooves" ++ "")%string)
    by reflexivity.
  assert (H2 : same_letters "HOOVES" "Hooves" = true) by reflexivity.
  assert (H3 : company_active true tenant = true) by reflexivity.
  repeat (split; [assumption | ]).
  exact (search_finds_names_containing_query town_db "HOOVES" "Hooves"
           "Horns and " "" true tenant H0 H1 H2 H3).
Defined.




Lemma haversine_arc_witness :
  (0 <= 1)%R /\ (1 - 0 <= 180)%R
  /\ (calculate_distance_haversine 0 0 1 0 = 6371 * ((1 - 0) * (PI / 180)))%R
  /\ (calculate_distance_haversine 0 0 0 1 = 6371 * ((1 - 0) * (PI / 180)))%R.
Proof.
  assert (H0 : (0 <= 1)%R) by lra.
  assert (H1 : (1 - 0 <= 180)%R) by lra.
  split; [exact H0 | ]. split; [exact H1 | ].
  exact (haversine_arc 0%R 1%R 0%R H0 H1).
Defined.

Lemma list_companies_pages_witness :
  (0 <= 0 /\ 0 <= 1 /\ 0 <= 1 /\ fits_int64 (0 + 1 + 1) = true)
  /\ exists p1 p2,
       result_of (list_companies 0 1 true) town_db = Ok p1
       /\ result_of (list_companies (0 + 1) 1 true) town_db = Ok p2
       /\ result_of (list_companies 0 (1 + 1) true) town_db = Ok (p1 ++ p2)
       /\ Z.of_nat (List.length p1) <= 1
       /\ (forall o, In o p1 ->
             exists c, In c (companies town_db) /\ o = convert c
                       /\ company_active true c = true)
       /\ (Z.of_nat
             (List.length
                (filter (fun c => if true then co_is_active c =? 1 else true)
                   (companies town_db))) <= 1 ->
           result_of (list_companies 0 1 true) town_db
           = Ok (map convert
                   (filter (fun c => if true then co_is_active c =? 1 else true)
                      (companies town_db))))
       /\ db_after (list_companies 0 1 true) town_db = town_db.
Proof.
  assert (H0 : 0 <= 0) by lia. assert (H1 : 0 <= 1) by lia.
  assert (Hfit : fits_int64 (0 + 1 + 1) = true) by reflexivity.
  split; [repeat split; assumption | ].
  exact (list_companies_pages town_db 0 1 1 true H0 H1 H1 Hfit).
Defined.

Lemma statistics_follow_create_company_witness :
  result_of (create_company firm) town_db = Ok firm_out
  /\ result_of get_statistics town_db = Ok (mkStatistics 2 1 1 1 0)
  /\ result_of get_statistics (db_after (create_company firm) town_db)
     = Ok (mkStatistics 2 1 (1 + 1) (1 + 1) (0 + 0)).
Proof.
  assert (H0 : result_of (create_company firm) town_db = Ok firm_out)
    by reflexivity.
  assert (H1 : result_of get_statistics town_db = Ok (mkStatistics 2 1 1 1 0))
    by reflexivity.
  split; [exact H0 | ]. split; [exact H1 | ].
  exact (statistics_follow_create_company town_db firm firm_out _ H0 H1).
Defined.

Lemma delete_company_removes_one_witness :
  fits_int64 9 = true
  /\ result_of (delete_company 9) town_db
     = Raise (mkHTTPException 404 CompanyNotFound)
  /\ db_after (delete_company 9) town_db = town_db
  /\ durable_states (snd (run (delete_company 9) town_db)) = [].
Proof.
  assert (H : fits_int64 9 = true) by reflexivity.
  split; [exact H | ].
  exact (delete_company_removes_one town_db 9 H).
Defined.

Lemma companies_by_category_direct_witness :
  fits_int64 9 = true
  /\ forall include_subcategories,
       run (get_companies_by_category 9 include_subcategories true) town_db
       = (Raise (mkHTTPException 404 CategoryNotFound),
          mkSession town_db [Select TCategories]).
Proof.
  assert (H : fits_int64 9 = true) by reflexivity.
  split; [exact H | ].
  exact (companies_by_category_direct town_db 9 true H).
Defined.
